(** * generative_recommenders.modules.preprocessors

    A shallow embedding of [ContextualPreprocessor.forward] and of
    [_get_contextual_input_embeddings], together with the jagged-sequence
    operations they call, and the properties of the merged jagged sequence
    that the preprocessor hands to the HSTU layers.

    Conventions of the embedding.
    - A tensor is a nested list in row-major order: a 1-D integer tensor is
      a [list Z], a 2-D floating-point tensor of shape (L, D) is a list of L
      rows, each a list of D scalars, a 3-D tensor is a list of matrices.
    - Floating-point scalars are [spec_float]s of an IEEE-754 binary format
      given by [prec] and [emax] (the [dtype] of [seq_embeddings]:
      float32 is 24/128, bfloat16 8/128, float16 11/16, float64 53/1024);
      products and sums are [SFmul] and [SFadd] in that format.
    - Python [int]s and the entries of integer tensors are [Z]; tensor
      dimensions (maximum lengths, embedding widths) are [nat].  The source
      does not fix the integer dtype of [seq_lengths]; lengths and offsets
      count rows of tensors held in memory, far below any integer width, so
      [forward] is read over [Z].  The prefix sum is also given as computed
      on [w]-bit signed integers, where sums wrap around, and the two are
      shown to agree as long as the total fits.
    - [Dict[str, Tensor]] is a [gmap string tensor]; a missing key raises
      [KeyError], which the embedding renders as [None].  The dictionary of
      maximum lengths is iterated in insertion order, so it is an
      association list. *)

From Stdlib Require Import ZArith Lia.
From Corelib Require Import SpecFloat.
From stdpp Require Import base option list gmap strings.

Local Open Scope Z_scope.

(** ** Tensor primitives of torch used by the module *)

Module Torch.

Section Layout.
Context {A : Type}.

(** [t.flatten(0, 1)] and [t.reshape(-1, D)] of a (B, C, D) tensor, and
    the row-wise [torch.flatten(t, 1, 2)]: the two leading (resp.
    trailing) axes are merged in row-major order. *)
Definition flatten01 (t : list (list A)) : list A := mjoin t.

Definition flatten12 (t : list (list (list A))) : list (list A) :=
  flatten01 <$> t.

(** [t.view(-1, C, D)] of a (B, C*D) tensor: every row is cut into [C]
    consecutive pieces of [D] scalars. *)
Definition view_row (C D : nat) (row : list A) : list (list A) :=
  (λ s, take D (drop (s * D) row)) <$> seq 0 C.

Definition view3 (C D : nat) (t : list (list A)) : list (list (list A)) :=
  view_row C D <$> t.

(** [t.transpose(0, 1)] of an (M, N, ...) tensor, [N] being the size of
    the second axis: [out[s][b] = t[b][s]]. *)
Definition transpose01 `{Inhabited A} (N : nat) (t : list (list A))
  : list (list A) :=
  (λ s, (λ row, row !!! s) <$> t) <$> seq 0 N.

(** [torch.cat(ts, dim=1)] of 2-D tensors with the same number of rows:
    row [b] of the result is the concatenation of the rows [b]. *)
Fixpoint cat_dim1 (ts : list (list (list A))) : list (list A) :=
  match ts with
  | [] => []
  | t :: rest =>
      match rest with
      | [] => t
      | _ :: _ => zip_with app t (cat_dim1 rest)
      end
  end.

(** [t.unsqueeze(-1)] of a 1-D tensor and [t.squeeze(-1)] of an (L, 1)
    tensor. *)
Definition unsqueeze_last (t : list A) : list (list A) := (λ x, [x]) <$> t.

Definition squeeze_last (t : list (list A)) : list A := mjoin t.

(** Python slice [l[a:b]] for non-negative bounds. *)
Definition slice (l : list A) (a b : Z) : list A :=
  take (Z.to_nat (b - a)) (drop (Z.to_nat a) l).
End Layout.

(** Arithmetic in the binary format [prec]/[emax]. *)
Section Arith.
Variables prec emax : Z.

Definition f_zero : spec_float := S754_zero false.

(** The scalar 1.0: mantissa [2^(prec-1)], exponent [1 - prec]. *)
Definition f_one : spec_float :=
  S754_finite false (Pos.iter xO xH (Z.to_pos (prec - 1))) (1 - prec).

(** Conversion of a boolean mask entry to the floating-point dtype, as
    type promotion does in [float_tensor * bool_tensor]. *)
Definition of_bool (b : bool) : spec_float := if b then f_one else f_zero.

Definition f_mul : spec_float → spec_float → spec_float := SFmul prec emax.
Definition f_add : spec_float → spec_float → spec_float := SFadd prec emax.

(** [x @ W] for a vector [x] of [Din] scalars and a (Din, Dout) matrix:
    the rows of [W] scaled by the entries of [x] are accumulated from
    the zero vector. *)
Definition vecmat (Dout : nat) (x : list spec_float)
    (W : list (list spec_float)) : list spec_float :=
  foldl (λ acc xw, zip_with f_add acc (f_mul xw.1 <$> xw.2))
        (replicate Dout f_zero) (zip x W).

(** [torch.baddbmm(input, batch1, batch2)] with [input] of shape
    (S, 1, Dout) broadcast over the batch axis, [batch1] of shape
    (S, B, Din) and [batch2] of shape (S, Din, Dout):
    [out[s][b] = input[s] + batch1[s][b] @ batch2[s]]. *)
Definition affine (Dout : nat) (bias_s : list spec_float)
    (W_s : list (list spec_float)) (x : list spec_float)
  : list spec_float :=
  zip_with f_add bias_s (vecmat Dout x W_s).

Definition baddbmm (Dout : nat) (input : list (list spec_float))
    (batch1 : list (list (list spec_float)))
    (batch2 : list (list (list spec_float)))
  : list (list (list spec_float)) :=
  zip_with (λ bias_s xw, affine Dout bias_s xw.2 <$> xw.1)
           input (zip batch1 batch2).
End Arith.

(** Modelled from the spec: the running sum behind
    [asynchronous_complete_cumsum], started at [acc]. *)
Fixpoint cumsum_from (acc : Z) (lengths : list Z) : list Z :=
  match lengths with
  | [] => [acc]
  | x :: rest => acc :: cumsum_from (acc + x) rest
  end.

(** Modelled from the spec: [torch.ops.fbgemm.asynchronous_complete_cumsum]
    is an external prefix-sum utility whose code is not in the repository.
    It maps [B] lengths to the [B + 1] offsets of their exclusive prefix
    sum, the first of which is 0. *)
Definition asynchronous_complete_cumsum (lengths : list Z) : list Z :=
  cumsum_from 0 lengths.

End Torch.

(** ** Jagged-tensor helpers of the repository *)

Module Jagged.

Section Ops.
Context {V : Type}.

(** Modelled from the spec: one row of [jagged_to_padded_dense], for an
    example whose values lie between the offsets [o] and [o'].  Up to
    [min(o' - o, max_length)] entries starting at [o] are copied; the
    positions past the copied count hold [padding_value]. *)
Definition pad_row (values : list V) (max_length : nat) (padding_value : V)
    (o o' : Z) : list V :=
  let copied :=
    take (Z.to_nat (o' - o) `min` max_length) (drop (Z.to_nat o) values) in
  copied ++ replicate (max_length - length copied) padding_value.

(** Modelled from the spec: [jagged_to_padded_dense] of
    [generative_recommenders.common], a module whose code is missing.
    For each example [i], up to [min(lengths[i], max_length)] entries
    starting at [offsets[i]] are copied into row [i]; the positions past
    the copied count hold [padding_value].  The number of rows is the
    number of offsets minus one, and every row has [max_length]
    entries. *)
Definition jagged_to_padded_dense (values : list V) (offsets : list Z)
    (max_length : nat) (padding_value : V) : list (list V) :=
  zip_with (pad_row values max_length padding_value)
           offsets (drop 1 offsets).

(** Modelled from the spec: the merged sequence of example [i] in
    [concat_2D_jagged],
    [values_left[i*max_len_left : (i+1)*max_len_left] ++
     values_right[offsets_right[i] : offsets_right[i+1]]]. *)
Definition concat_example (values_left values_right : list V)
    (max_len_left : nat) (i : nat) (o o' : Z) : list V :=
  Torch.slice values_left
    (Z.of_nat i * Z.of_nat max_len_left)
    ((Z.of_nat i + 1) * Z.of_nat max_len_left)
  ++ Torch.slice values_right o o'.

(** Modelled from the spec: [concat_2D_jagged] of
    [generative_recommenders.ops.jagged_tensors], a module whose code is
    missing.  With [offsets_left=None] the left block has
    [max_len_left] entries per example; the merged sequences of the
    examples follow each other in the flat output, in input order.  The
    spec gives [max_len_right] no role in the result. *)
Definition concat_2D_jagged (values_left values_right : list V)
    (max_len_left : nat) (max_len_right : Z) (offsets_right : list Z)
  : list V :=
  mjoin (imap (λ i oo, concat_example values_left values_right
                         max_len_left i oo.1 oo.2)
              (zip offsets_right (drop 1 offsets_right))).
End Ops.

End Jagged.

(** ** The preprocessor *)

(** A payload tensor is either a 2-D floating-point tensor, which carries
    its number of columns as part of its shape, or a 1-D integer tensor. *)
Inductive tensor :=
  | FloatTensor (cols : nat) (rows : list (list spec_float))
  | IntTensor (vals : list Z).

Definition as_float_tensor (t : tensor) : option (nat * list (list spec_float)) :=
  match t with FloatTensor d rows => Some (d, rows) | IntTensor _ => None end.

Definition as_int_tensor (t : tensor) : option (list Z) :=
  match t with IntTensor vals => Some vals | FloatTensor _ _ => None end.

Section Preprocessor.
(** The floating-point format of [seq_embeddings.dtype]. *)
Variables prec emax : Z.
(** The scalar type of [seq_timestamps] and its zero. *)
Context {Ts : Type} (ts_zero : Ts).

(** The mask product [v * (seq_lengths.view(-1, 1) >= min_uih_length)]:
    row [b] of [v] is multiplied entrywise by the mask entry of example
    [b], converted to the dtype of [v]. *)
Definition mask_row (min_uih_length len : Z) (row : list spec_float)
  : list spec_float :=
  (λ x, Torch.f_mul prec emax x
          (Torch.of_bool prec (bool_decide (min_uih_length ≤ len)))) <$> row.

Definition gate (min_uih_length : Z) (v : list (list spec_float))
    (seq_lengths : list Z) : list (list spec_float) :=
  zip_with (λ row len, mask_row min_uih_length len row) v seq_lengths.

(** [torch.flatten(jagged_to_padded_dense(values, [offsets], [max_len],
    0.0), 1, 2)] for a payload of [cols] columns: the padding vector is
    [cols] zeros, and the [max_len] vectors of an example are laid side by
    side in one row. *)
Definition flattened_padded (cols : nat) (values : list (list spec_float))
    (offsets : list Z) (max_len : nat) : list (list spec_float) :=
  Torch.flatten12
    (Jagged.jagged_to_padded_dense values offsets max_len
       (replicate cols Torch.f_zero)).

(** One iteration of the loop of [_get_contextual_input_embeddings]: the
    entry of [padded_values] for the feature [key].  The payload is taken
    to hold values of the target dtype already, so that [.to(dtype)]
    leaves them as they are. *)
Definition padded_feature (seq_lengths : list Z)
    (seq_payloads : gmap string tensor)
    (contextual_feature_to_min_uih_length : gmap string Z)
    (key : string) (max_len : nat) : option (list (list spec_float)) :=
  payload ← seq_payloads !! key ≫= as_float_tensor;
  offsets ← seq_payloads !! (key +:+ "_offsets") ≫= as_int_tensor;
  let v := flattened_padded payload.1 payload.2 offsets max_len in
  let min_uih_length :=
    default 0 (contextual_feature_to_min_uih_length !! key) in
  if bool_decide (0 < min_uih_length)
  then Some (gate min_uih_length v seq_lengths)
  else Some v.

Definition _get_contextual_input_embeddings (seq_lengths : list Z)
    (seq_payloads : gmap string tensor)
    (contextual_feature_to_max_length : list (string * nat))
    (contextual_feature_to_min_uih_length : gmap string Z)
  : option (list (list spec_float)) :=
  padded_values ←
    mapM (λ kv, padded_feature seq_lengths seq_payloads
                  contextual_feature_to_min_uih_length kv.1 kv.2)
         contextual_feature_to_max_length;
  Some (Torch.cat_dim1 padded_values).

(** The state of a [ContextualPreprocessor].  The content MLP is an
    external collaborator and is kept abstract. *)
Record ContextualPreprocessor := {
  _input_embedding_dim : nat;
  _output_embedding_dim : nat;
  _content_embedding_mlp : list (list spec_float) → list (list spec_float);
  _contextual_feature_to_max_length : list (string * nat);
  _contextual_feature_to_min_uih_length : gmap string Z;
  _batched_contextual_linear_weights : list (list (list spec_float));
  _batched_contextual_linear_bias : list (list spec_float);
}.

Definition _max_contextual_seq_len (self : ContextualPreprocessor) : nat :=
  sum_list (_contextual_feature_to_max_length self).*2.

(** The tuple returned by [forward]. *)
Record forward_output := {
  output_max_seq_len : Z;
  output_seq_lengths : list Z;
  output_seq_offsets : list Z;
  output_seq_timestamps : list Ts;
  output_seq_embeddings : list (list spec_float);
  output_num_targets : list Z;
  output_seq_payloads : gmap string tensor;
}.

(** The batched slot projection of [forward]: the dense contextual matrix
    of shape (B, C*Din) is viewed as (B, C, Din), transposed to
    (C, B, Din), sent through [baddbmm] and transposed back to
    (B, C, Dout). *)
Definition project_contextual (self : ContextualPreprocessor)
    (contextual_embeddings : list (list spec_float))
  : list (list (list spec_float)) :=
  let C := _max_contextual_seq_len self in
  Torch.transpose01 (length contextual_embeddings)
    (Torch.baddbmm prec emax (_output_embedding_dim self)
       (_batched_contextual_linear_bias self)
       (Torch.transpose01 C
          (Torch.view3 C (_input_embedding_dim self) contextual_embeddings))
       (_batched_contextual_linear_weights self)).

(** [ContextualPreprocessor.forward].  The offsets and the content
    embeddings are computed first; when the contextual width is positive
    the contextual embeddings are extracted, projected and concatenated
    ahead of the content, the zero timestamps ahead of the timestamps, and
    [max_seq_len], the lengths and the offsets are updated; [num_targets]
    and [seq_payloads] are returned as received. *)
Definition forward (self : ContextualPreprocessor) (max_seq_len : Z)
    (seq_lengths : list Z) (seq_timestamps : list Ts)
    (seq_embeddings : list (list spec_float)) (num_targets : list Z)
    (seq_payloads : gmap string tensor) : option forward_output :=
  let C := _max_contextual_seq_len self in
  let seq_offsets := Torch.asynchronous_complete_cumsum seq_lengths in
  let content := _content_embedding_mlp self seq_embeddings in
  if bool_decide (0 < C)%nat then
    contextual_embeddings ←
      _get_contextual_input_embeddings seq_lengths seq_payloads
        (_contextual_feature_to_max_length self)
        (_contextual_feature_to_min_uih_length self);
    let contextual_embeddings :=
      project_contextual self contextual_embeddings in
    let new_lengths := (λ len, len + Z.of_nat C) <$> seq_lengths in
    Some {|
      output_max_seq_len := max_seq_len + Z.of_nat C;
      output_seq_lengths := new_lengths;
      output_seq_offsets := Torch.asynchronous_complete_cumsum new_lengths;
      output_seq_timestamps :=
        Torch.squeeze_last
          (Jagged.concat_2D_jagged
             (replicate (length seq_lengths * C) [ts_zero])
             (Torch.unsqueeze_last seq_timestamps)
             C max_seq_len seq_offsets);
      output_seq_embeddings :=
        Jagged.concat_2D_jagged
          (Torch.flatten01 contextual_embeddings) content
          C max_seq_len seq_offsets;
      output_num_targets := num_targets;
      output_seq_payloads := seq_payloads;
    |}
  else
    Some {|
      output_max_seq_len := max_seq_len;
      output_seq_lengths := seq_lengths;
      output_seq_offsets := seq_offsets;
      output_seq_timestamps := seq_timestamps;
      output_seq_embeddings := content;
      output_num_targets := num_targets;
      output_seq_payloads := seq_payloads;
    |}.

(** The slot projection read one example at a time: slot [s] of the
    example's dense row goes through the affine map of slot [s] and of no
    other. *)
Definition slot_projection (self : ContextualPreprocessor)
    (row : list spec_float) : list (list spec_float) :=
  zip_with (λ bias_s wx,
              Torch.affine prec emax (_output_embedding_dim self)
                bias_s wx.1 wx.2)
           (_batched_contextual_linear_bias self)
           (zip (_batched_contextual_linear_weights self)
                (Torch.view_row (_max_contextual_seq_len self)
                   (_input_embedding_dim self) row)).

(** [interleave_targets] of this preprocessor. *)
Definition interleave_targets (self : ContextualPreprocessor) : bool := false.

End Preprocessor.

(** ** Construction *)

(** [ContextualPreprocessor.__init__].  The total contextual width is the
    sum of the maximum lengths; the slot weights have shape
    (C, input_embedding_dim, output_embedding_dim) and are filled by
    [normal_(0.0, std)], whose sample for the entry (s, i, j) is
    [normal s i j]; the slot biases have shape (C, output_embedding_dim)
    and are filled with 0.0.  The content MLP is assembled from torch
    layers and is passed in as built. *)
Definition __init__ (input_embedding_dim output_embedding_dim : nat)
    (contextual_feature_to_max_length : list (string * nat))
    (contextual_feature_to_min_uih_length : gmap string Z)
    (content_embedding_mlp : list (list spec_float) → list (list spec_float))
    (normal : nat → nat → nat → spec_float) : ContextualPreprocessor :=
  let max_contextual_seq_len := sum_list contextual_feature_to_max_length.*2 in
  {| _input_embedding_dim := input_embedding_dim;
     _output_embedding_dim := output_embedding_dim;
     _content_embedding_mlp := content_embedding_mlp;
     _contextual_feature_to_max_length := contextual_feature_to_max_length;
     _contextual_feature_to_min_uih_length :=
       contextual_feature_to_min_uih_length;
     _batched_contextual_linear_weights :=
       (λ s, (λ i, normal s i <$> seq 0 output_embedding_dim)
               <$> seq 0 input_embedding_dim)
         <$> seq 0 max_contextual_seq_len;
     _batched_contextual_linear_bias :=
       replicate max_contextual_seq_len
         (replicate output_embedding_dim Torch.f_zero) |}.

(** ** Variations of the preprocessor state *)

(** The preprocessor whose slot [s] has the weight matrix [W_s] and the bias
    vector [bias_s], every other slot keeping its parameters. *)
Definition with_slot_parameters (self : ContextualPreprocessor) (s : nat)
    (W_s : list (list spec_float)) (bias_s : list spec_float)
  : ContextualPreprocessor :=
  {| _input_embedding_dim := _input_embedding_dim self;
     _output_embedding_dim := _output_embedding_dim self;
     _content_embedding_mlp := _content_embedding_mlp self;
     _contextual_feature_to_max_length :=
       _contextual_feature_to_max_length self;
     _contextual_feature_to_min_uih_length :=
       _contextual_feature_to_min_uih_length self;
     _batched_contextual_linear_weights :=
       <[s := W_s]> (_batched_contextual_linear_weights self);
     _batched_contextual_linear_bias :=
       <[s := bias_s]> (_batched_contextual_linear_bias self) |}.

(** The preprocessor with another dictionary of minimum history lengths. *)
Definition with_min_uih_lengths (self : ContextualPreprocessor)
    (mins : gmap string Z) : ContextualPreprocessor :=
  {| _input_embedding_dim := _input_embedding_dim self;
     _output_embedding_dim := _output_embedding_dim self;
     _content_embedding_mlp := _content_embedding_mlp self;
     _contextual_feature_to_max_length :=
       _contextual_feature_to_max_length self;
     _contextual_feature_to_min_uih_length := mins;
     _batched_contextual_linear_weights :=
       _batched_contextual_linear_weights self;
     _batched_contextual_linear_bias :=
       _batched_contextual_linear_bias self |}.

(** ** Shape contract of the inputs *)

(** The payload of a contextual feature is well shaped for a batch of [B]
    examples and an input width [Din]: [seq_payloads[key]] is a
    floating-point tensor with [Din] columns, and
    [seq_payloads[key + "_offsets"]] has [B + 1] entries. *)
Definition feature_payload_ok (B Din : nat) (seq_payloads : gmap string tensor)
    (key : string) : bool :=
  match seq_payloads !! key, seq_payloads !! (key +:+ "_offsets") with
  | Some (FloatTensor d rows), Some (IntTensor offsets) =>
      bool_decide (d = Din)
      && forallb (λ r, bool_decide (length r = Din)) rows
      && bool_decide (length offsets = S B)
  | _, _ => false
  end.

Definition payloads_ok (B Din : nat) (seq_payloads : gmap string tensor)
    (features : list (string * nat)) : bool :=
  forallb (λ kv, feature_payload_ok B Din seq_payloads kv.1) features.

(** The slot parameters have the shapes [__init__] gives them: one weight
    matrix and one bias vector per contextual slot. *)
Definition slot_parameters_ok (self : ContextualPreprocessor) : bool :=
  bool_decide (length (_batched_contextual_linear_weights self)
               = _max_contextual_seq_len self)
  && bool_decide (length (_batched_contextual_linear_bias self)
                  = _max_contextual_seq_len self).

(** ** Classes of floating-point values *)


(** [isfinite(x)]: neither NaN nor an infinity. *)
Definition sf_is_finite (x : spec_float) : bool :=
  match x with S754_zero _ | S754_finite _ _ _ => true | _ => false end.

(** ** Per-example reading of the merged sequence *)

(** The merged sequence read one example at a time: the example's left
    block followed by its slice of the right block. *)
Definition merged_pieces {V : Type} (rows : list (list V)) (right : list V)
    (offsets : list Z) : list (list V) :=
  zip_with (λ row oo, row ++ Torch.slice right oo.1 oo.2)
           rows (zip offsets (drop 1 offsets)).

(** ** The offset invariant of a jagged sequence *)

(** [sum(lengths)]. *)
Definition sum_Z (lengths : list Z) : Z := foldr Z.add 0 lengths.

(** The offsets of a jagged sequence with the given per-example lengths:
    one more entry than there are examples, first entry 0, consecutive
    differences equal to the lengths, last entry the total length, and no
    entry smaller than an earlier one. *)
Record offsets_invariant (lengths offsets : list Z) : Prop := {
  offsets_size : length offsets = S (length lengths);
  offsets_first : offsets !! 0%nat = Some 0;
  offsets_step : ∀ i len, lengths !! i = Some len →
    ∃ o o', offsets !! i = Some o ∧ offsets !! S i = Some o' ∧ o' - o = len;
  offsets_last : offsets !! length lengths = Some (sum_Z lengths);
  offsets_monotone : ∀ i j o o', (i ≤ j)%nat →
    offsets !! i = Some o → offsets !! j = Some o' → o ≤ o';
}.

(** ** The prefix sum on fixed-width integers *)





(** ** A worked batch *)

(** Two examples of lengths 2 and 3 in float32, with the contextual
    features ["ctx"] (one slot) and ["geo"] (two slots, gated at a history
    of 3 events), embeddings of width 2, and the identity standing for the
    content MLP. *)
Module Worked.

Definition f32 (m : positive) (e : Z) : spec_float := S754_finite false m e.

Definition one : spec_float := f32 8388608 (-23).
Definition two : spec_float := f32 8388608 (-22).
Definition three : spec_float := f32 12582912 (-22).
Definition four : spec_float := f32 8388608 (-21).

Definition features : list (string * nat) :=
  [("ctx", 1%nat); ("geo", 2%nat)].

Definition min_uih_lengths : gmap string Z := {[ "geo" := 3 ]}.

Definition self : ContextualPreprocessor := {|
  _input_embedding_dim := 2;
  _output_embedding_dim := 2;
  _content_embedding_mlp := λ embeddings, embeddings;
  _contextual_feature_to_max_length := features;
  _contextual_feature_to_min_uih_length := min_uih_lengths;
  _batched_contextual_linear_weights :=
    [ [[one; Torch.f_zero]; [Torch.f_zero; one]];
      [[two; Torch.f_zero]; [Torch.f_zero; two]];
      [[Torch.f_zero; one]; [one; Torch.f_zero]] ];
  _batched_contextual_linear_bias :=
    [ [Torch.f_zero; Torch.f_zero]; [one; one]; [Torch.f_zero; two] ];
|}.

(** The same preprocessor without contextual features. *)
Definition plain : ContextualPreprocessor := {|
  _input_embedding_dim := 2;
  _output_embedding_dim := 2;
  _content_embedding_mlp := λ embeddings, embeddings;
  _contextual_feature_to_max_length := [];
  _contextual_feature_to_min_uih_length := ∅;
  _batched_contextual_linear_weights := [];
  _batched_contextual_linear_bias := [];
|}.

Definition max_seq_len : Z := 5.
Definition seq_lengths : list Z := [2; 3].
Definition seq_timestamps : list Z := [10; 11; 20; 21; 22].
Definition seq_embeddings : list (list spec_float) :=
  [[one; one]; [two; two]; [three; three]; [four; four]; [one; four]].
Definition num_targets : list Z := [1; 1].

Definition ctx_values : list (list spec_float) := [[one; two]; [three; four]].
Definition geo_values : list (list spec_float) :=
  [[two; two]; [three; one]; [four; three]].

Definition seq_payloads : gmap string tensor :=
  {[ "ctx" := FloatTensor 2 ctx_values;
     "ctx_offsets" := IntTensor [0; 1; 2];
     "geo" := FloatTensor 2 geo_values;
     "geo_offsets" := IntTensor [0; 1; 3] ]}.

(** [forward] and the dense contextual matrix at this batch. *)
Definition run (preprocessor : ContextualPreprocessor)
  : option (@forward_output Z) :=
  forward 24 128 0 preprocessor max_seq_len seq_lengths seq_timestamps
    seq_embeddings num_targets seq_payloads.

Definition contextual : option (list (list spec_float)) :=
  _get_contextual_input_embeddings 24 128 seq_lengths seq_payloads
    features min_uih_lengths.

End Worked.

(** * Properties *)

(** ** Prefix sums *)

Section Cumsum.
Import Torch.

Lemma length_cumsum_from acc lengths :
  length (cumsum_from acc lengths) = S (length lengths).
Proof.
  revert acc. induction lengths as [|x rest IH]; intros acc; simpl; [done|].
  by rewrite IH.
Qed.

Lemma lookup_cumsum_from acc lengths i :
  (i ≤ length lengths)%nat →
  cumsum_from acc lengths !! i = Some (acc + sum_Z (take i lengths)).
Proof.
  revert acc i. induction lengths as [|x rest IH]; intros acc i Hi; simpl in *.
  - assert (i = 0%nat) as -> by lia. simpl. f_equal. lia.
  - destruct i as [|i]; simpl.
    + f_equal. lia.
    + rewrite IH by lia. f_equal. lia.
Qed.

Lemma sum_Z_take_S lengths i len :
  lengths !! i = Some len →
  sum_Z (take (S i) lengths) = sum_Z (take i lengths) + len.
Proof.
  revert i. induction lengths as [|x rest IH]; intros [|i] Hi;
    simplify_eq/=; [lia|].
  rewrite (IH i Hi). lia.
Qed.

Lemma sum_Z_take_mono lengths i j :
  Forall (λ len, 0 ≤ len) lengths → (i ≤ j)%nat →
  sum_Z (take i lengths) ≤ sum_Z (take j lengths).
Proof.
  intros Hnn. revert i j.
  induction Hnn as [|x rest Hx _ IH]; intros i j Hij.
  - by rewrite !take_nil.
  - destruct i as [|i], j as [|j]; simpl; try lia.
    + assert (0 ≤ sum_Z (take j rest)); [|lia].
      specialize (IH 0%nat j). rewrite take_0 in IH. simpl in IH. lia.
    + specialize (IH i j). lia.
Qed.

Lemma cumsum_offsets_invariant lengths :
  Forall (λ len, 0 ≤ len) lengths →
  offsets_invariant lengths (asynchronous_complete_cumsum lengths).
Proof.
  intros Hnn. unfold asynchronous_complete_cumsum. split.
  - apply length_cumsum_from.
  - rewrite lookup_cumsum_from by lia. by rewrite take_0.
  - intros i len Hi.
    pose proof (lookup_lt_Some _ _ _ Hi) as Hlt.
    exists (sum_Z (take i lengths)), (sum_Z (take (S i) lengths)).
    rewrite !lookup_cumsum_from by lia.
    rewrite (sum_Z_take_S _ _ _ Hi). split_and!; [done|done|lia].
  - rewrite lookup_cumsum_from by lia. by rewrite firstn_all.
  - intros i j o o' Hij Hi Hj.
    pose proof (lookup_lt_Some _ _ _ Hj) as Hlt.
    rewrite length_cumsum_from in Hlt.
    rewrite lookup_cumsum_from in Hi by lia.
    rewrite lookup_cumsum_from in Hj by lia.
    simplify_eq. pose proof (sum_Z_take_mono lengths i j Hnn Hij). lia.
Qed.
End Cumsum.

(** ** Floating-point facts used by the minimum-length gate *)

Section FloatFacts.
Variables prec emax : Z.
Hypothesis prec_gt_1 : 1 < prec.

Lemma iter_pos_nat {A} (f : A → A) (p : positive) (x : A) :
  SpecFloat.iter_pos f p x = Nat.iter (Pos.to_nat p) f x.
Proof.
  revert x. induction p as [p IH|p IH|]; intros x; cbn [SpecFloat.iter_pos].
  - rewrite !IH, Pos2Nat.inj_xI, <-Nat.iter_add, <-Nat.iter_succ_r.
    f_equal. lia.
  - rewrite !IH, Pos2Nat.inj_xO, <-Nat.iter_add. f_equal. lia.
  - done.
Qed.

Lemma shr_1_iter_xO n m :
  Nat.iter n shr_1 {| shr_m := Zpos (Nat.iter n xO m); shr_r := false; shr_s := false |}
  = {| shr_m := Zpos m; shr_r := false; shr_s := false |}.
Proof.
  induction n as [|n IH]; [done|].
  rewrite Nat.iter_succ_r. simpl. exact IH.
Qed.

Lemma digits2_pos_iter_xO n m :
  Zpos (digits2_pos (Nat.iter n xO m)) = Zpos (digits2_pos m) + Z.of_nat n.
Proof.
  induction n as [|n IH]; [simpl; lia|].
  simpl Nat.iter. simpl digits2_pos. rewrite Pos2Z.inj_succ, IH. lia.
Qed.

Lemma f_mul_one_r x :
  valid_binary prec emax x = true →
  Torch.f_mul prec emax x (Torch.f_one prec) = x.
Proof.
  unfold Torch.f_mul, Torch.f_one.
  destruct x as [s|s| |s m e]; intros Hv; cbn [SFmul];
    [by destruct s|by destruct s|done|].
  cbn [valid_binary] in Hv. unfold bounded, canonical_mantissa in Hv.
  apply andb_prop in Hv as [Hc Hb]. apply Z.eqb_eq in Hc. apply Z.leb_le in Hb.
  set (n := Z.to_nat (prec - 1)).
  assert (Hm : (m * Pos.iter xO 1 (Z.to_pos (prec - 1)))%positive = Nat.iter n xO m).
  { rewrite Pos2Nat.inj_iter. replace (Pos.to_nat (Z.to_pos (prec - 1))) with n by (unfold n; lia).
    clear. induction n as [|n IH]; simpl; [lia|]. rewrite <-IH. lia. }
  rewrite Hm.
  unfold binary_round_aux, shr_fexp. simpl Zdigits2.
  rewrite digits2_pos_iter_xO.
  replace (Z.pos (digits2_pos m) + Z.of_nat n + (e + (1 - prec))) with (Z.pos (digits2_pos m) + e) by (unfold n; lia).
  rewrite Hc.
  replace (e - (e + (1 - prec))) with (Z.pos (Z.to_pos (prec - 1))) by lia.
  simpl shr. rewrite iter_pos_nat.
  replace (Pos.to_nat (Z.to_pos (prec - 1))) with n by (unfold n; lia).
  simpl shr_record_of_loc. rewrite shr_1_iter_xO. simpl.
  replace (e + (1 - prec) + Z.pos (Z.to_pos (prec - 1))) with e by lia.
  rewrite Hc. rewrite Z.sub_diag. simpl.
  apply Z.leb_le in Hb. rewrite Hb. by destruct s.
Qed.
End FloatFacts.

(** ** Row-major layout *)

Section LayoutFacts.
Context {A : Type}.
Implicit Types (l : list A) (t : list (list A)).

Lemma lookup_transpose01 `{Inhabited A} (N : nat) t (s : nat) :
  (s < N)%nat →
  Torch.transpose01 N t !! s = Some ((λ row, row !!! s) <$> t).
Proof.
  intros Hs. unfold Torch.transpose01.
  by rewrite list_lookup_fmap, lookup_seq_lt.
Qed.

Lemma length_transpose01 `{Inhabited A} (N : nat) t :
  length (Torch.transpose01 N t) = N.
Proof. unfold Torch.transpose01. by rewrite length_fmap, length_seq. Qed.

Lemma lookup_view_row (C D : nat) l (s : nat) :
  (s < C)%nat →
  Torch.view_row C D l !! s = Some (take D (drop (s * D) l)).
Proof.
  intros Hs. unfold Torch.view_row.
  by rewrite list_lookup_fmap, lookup_seq_lt.
Qed.

Lemma length_view_row (C D : nat) l : length (Torch.view_row C D l) = C.
Proof. unfold Torch.view_row. by rewrite length_fmap, length_seq. Qed.

(** Cutting the concatenation of rows of equal width back into rows. *)
Lemma take_drop_mjoin_uniform (n : nat) t (i : nat) :
  Forall (λ r, length r = n) t →
  take n (drop (i * n) (mjoin t)) = default [] (t !! i).
Proof.
  intros Ht. revert i. induction Ht as [|r t Hr _ IH]; intros i.
  - simpl. by rewrite drop_nil, take_nil.
  - destruct i as [|i]; simpl.
    + by rewrite drop_0, take_app_length'.
    + rewrite <-IH. f_equal.
      replace (n + i * n)%nat with (length r + i * n)%nat by lia.
      by rewrite drop_app_add.
Qed.

Lemma view_row_mjoin (C D : nat) t :
  length t = C → Forall (λ r, length r = D) t →
  Torch.view_row C D (mjoin t) = t.
Proof.
  intros Hlen Ht. apply list_eq. intros s.
  destruct (decide (s < C)%nat) as [Hs|Hs].
  - rewrite lookup_view_row by done.
    rewrite take_drop_mjoin_uniform by done.
    destruct (lookup_lt_is_Some_2 t s) as [r Hr]; [lia|]. by rewrite Hr.
  - rewrite !lookup_ge_None_2; [done|lia|rewrite length_view_row; lia].
Qed.

(** The slice of example [i] out of a flat buffer built from pieces. *)
Lemma sum_Z_nonneg (lens : list Z) :
  Forall (λ len, 0 ≤ len) lens → 0 ≤ sum_Z lens.
Proof. unfold sum_Z. induction 1; cbn [foldr]; lia. Qed.

Lemma slice_mjoin t (i : nat) l :
  t !! i = Some l →
  Torch.slice (mjoin t)
    (sum_Z (take i ((λ r, Z.of_nat (length r)) <$> t)))
    (sum_Z (take (S i) ((λ r, Z.of_nat (length r)) <$> t))) = l.
Proof.
  revert i. induction t as [|r t IH]; intros i Hi; [done|].
  rewrite fmap_cons. destruct i as [|i].
  - injection Hi as ->. unfold Torch.slice, sum_Z. cbn [take foldr mjoin list_join].
    rewrite take_0. cbn [foldr]. change (Z.to_nat 0) with 0%nat.
    rewrite drop_0.
    replace (Z.to_nat (Z.of_nat (length l) + 0 - 0)) with (length l) by lia.
    by rewrite take_app_length.
  - cbn [lookup list_lookup] in Hi. specialize (IH i Hi).
    etrans; [|exact IH]. clear IH.
    set (lens := (λ r0 : list A, Z.of_nat (length r0)) <$> t).
    assert (0 ≤ sum_Z (take i lens)).
    { apply sum_Z_nonneg, Forall_take, Forall_fmap, Forall_true.
      intros r'. simpl. lia. }
    unfold Torch.slice, sum_Z in *. cbn [take foldr mjoin list_join].
    f_equal; [lia|].
    replace (Z.to_nat (Z.of_nat (length r) + foldr Z.add 0 (take i lens)))
      with (length r + Z.to_nat (foldr Z.add 0%Z (take i lens)))%nat by lia.
    by rewrite drop_app_add.
Qed.

Lemma imap_lookup_zip_with {B C} (g : list A → B → C) t (ys : list B) :
  (length ys ≤ length t)%nat →
  imap (λ i y, g (default [] (t !! i)) y) ys = zip_with g t ys.
Proof.
  revert ys. induction t as [|r t IH]; intros [|y ys] Hlen;
    simpl in *; try done; try lia.
  f_equal. rewrite <-IH by lia. by apply imap_ext.
Qed.
End LayoutFacts.

(** ** The mask product *)

Section GateFacts.
Variables prec emax : Z.


Lemma f_mul_zero_r_not_finite x :
  sf_is_finite x = false →
  Torch.f_mul prec emax x Torch.f_zero = S754_nan.
Proof. by destruct x as [s|s| |s m e]. Qed.
End GateFacts.

(** ** The batched slot projection *)

Section ProjectionFacts.
Variables prec emax : Z.
Implicit Types (self : ContextualPreprocessor).

Lemma lookup_baddbmm Dout input batch1 batch2 (s : nat) :
  Torch.baddbmm prec emax Dout input batch1 batch2 !! s =
  bias_s ← input !! s; x_s ← batch1 !! s; W_s ← batch2 !! s;
  Some (Torch.affine prec emax Dout bias_s W_s <$> x_s).
Proof.
  unfold Torch.baddbmm. rewrite !lookup_zip_with.
  destruct (input !! s) as [bias_s|]; [|done].
  destruct (batch1 !! s) as [x_s|]; [|done].
  by destruct (batch2 !! s) as [W_s|].
Qed.

Lemma length_baddbmm Dout input batch1 batch2 :
  length (Torch.baddbmm prec emax Dout input batch1 batch2) =
  (length input `min` (length batch1 `min` length batch2))%nat.
Proof. unfold Torch.baddbmm. by rewrite !length_zip_with. Qed.

Lemma lookup_slot_projection self row (s : nat) :
  slot_projection prec emax self row !! s =
  bias_s ← _batched_contextual_linear_bias self !! s;
  W_s ← _batched_contextual_linear_weights self !! s;
  x ← Torch.view_row (_max_contextual_seq_len self)
         (_input_embedding_dim self) row !! s;
  Some (Torch.affine prec emax (_output_embedding_dim self) bias_s W_s x).
Proof.
  unfold slot_projection. rewrite !lookup_zip_with.
  destruct (_batched_contextual_linear_bias self !! s) as [bias_s|]; [|done].
  destruct (_batched_contextual_linear_weights self !! s) as [W_s|]; [|done].
  by destruct (Torch.view_row _ _ row !! s).
Qed.

Lemma length_slot_projection self row :
  slot_parameters_ok self = true →
  length (slot_projection prec emax self row) = _max_contextual_seq_len self.
Proof.
  unfold slot_parameters_ok. intros [Hw Hb]%andb_prop.
  apply bool_decide_eq_true in Hw, Hb.
  unfold slot_projection.
  rewrite !length_zip_with, length_view_row. lia.
Qed.

(** The batched computation agrees with the per-example one. *)
Lemma project_contextual_rows self dense :
  slot_parameters_ok self = true →
  project_contextual prec emax self dense =
  slot_projection prec emax self <$> dense.
Proof.
  intros Hok. pose proof Hok as [Hw Hb]%andb_prop.
  apply bool_decide_eq_true in Hw, Hb.
  set (C := _max_contextual_seq_len self) in *.
  apply list_eq. intros b. unfold project_contextual. fold C.
  rewrite list_lookup_fmap.
  destruct (dense !! b) as [row|] eqn:Hrow; simpl.
  2:{ apply lookup_ge_None_2. rewrite length_transpose01.
      by apply lookup_ge_None_1. }
  pose proof (lookup_lt_Some _ _ _ Hrow) as Hb_lt.
  rewrite lookup_transpose01 by done. f_equal.
  apply list_eq. intros s. rewrite list_lookup_fmap, lookup_baddbmm.
  rewrite lookup_slot_projection. fold C.
  destruct (_batched_contextual_linear_bias self !! s) as [bias_s|]; [|done].
  simpl.
  destruct (decide (s < C)%nat) as [Hs|Hs].
  - rewrite lookup_transpose01 by done. simpl.
    destruct (_batched_contextual_linear_weights self !! s) as [W_s|];
      [|done].
    simpl. rewrite lookup_view_row by done. simpl. f_equal.
    apply list_lookup_total_correct.
    unfold Torch.view3. rewrite !list_lookup_fmap, Hrow. simpl.
    do 2 f_equal. by apply list_lookup_total_correct, lookup_view_row.
  - rewrite (lookup_ge_None_2 (Torch.transpose01 _ _));
      [|rewrite length_transpose01; lia].
    simpl. rewrite (lookup_ge_None_2 (_batched_contextual_linear_weights _));
      [done|lia].
Qed.
End ProjectionFacts.

(** ** Jagged concatenation *)

Section ConcatFacts.
Context {V : Type}.
Implicit Types (rows : list (list V)) (right : list V).

Lemma concat_2D_jagged_rows rows right (C : nat) mlr offsets :
  Forall (λ r, length r = C) rows →
  (length offsets ≤ S (length rows))%nat →
  Jagged.concat_2D_jagged (mjoin rows) right C mlr offsets =
  mjoin (zip_with (λ row oo, row ++ Torch.slice right oo.1 oo.2)
           rows (zip offsets (drop 1 offsets))).
Proof.
  intros Hrows Hlen. unfold Jagged.concat_2D_jagged. f_equal.
  rewrite <-(imap_lookup_zip_with
               (λ row oo, row ++ Torch.slice right oo.1 oo.2)).
  2:{ rewrite length_zip_with, length_drop. lia. }
  apply imap_ext. intros i [o o'] _. simpl.
  unfold Jagged.concat_example. f_equal. unfold Torch.slice.
  replace (Z.to_nat ((Z.of_nat i + 1) * Z.of_nat C - Z.of_nat i * Z.of_nat C))
    with C by lia.
  replace (Z.to_nat (Z.of_nat i * Z.of_nat C)) with (i * C)%nat by lia.
  by apply take_drop_mjoin_uniform.
Qed.

Lemma fmap_mjoin {W} (f : V → W) rows :
  f <$> mjoin rows = mjoin (fmap f <$> rows).
Proof.
  induction rows as [|r rows IH]; [done|].
  simpl. by rewrite fmap_app, IH.
Qed.

Lemma slice_fmap {W} (f : V → W) (l : list V) a b :
  Torch.slice (f <$> l) a b = f <$> Torch.slice l a b.
Proof. unfold Torch.slice. by rewrite fmap_take, fmap_drop. Qed.

(** [concat_2D_jagged] moves values around without looking at them. *)
Lemma concat_2D_jagged_fmap {W} (f : V → W) (left right : list V)
    (C : nat) mlr offsets :
  Jagged.concat_2D_jagged (f <$> left) (f <$> right) C mlr offsets =
  f <$> Jagged.concat_2D_jagged left right C mlr offsets.
Proof.
  unfold Jagged.concat_2D_jagged. rewrite fmap_mjoin, fmap_imap.
  f_equal. apply imap_ext. intros i [o o'] _. simpl.
  unfold Jagged.concat_example. by rewrite fmap_app, !slice_fmap.
Qed.

Lemma mjoin_singletons (l : list V) : mjoin ((λ x, [x]) <$> l) = l.
Proof. induction l as [|x l IH]; [done|]. rewrite fmap_cons. simpl. by f_equal. Qed.

Lemma mjoin_replicate_replicate (B C : nat) (x : V) :
  mjoin (replicate B (replicate C x)) = replicate (B * C) x.
Proof.
  induction B as [|B IH]; [done|]. simpl. by rewrite IH, replicate_add.
Qed.
End ConcatFacts.

Section OffsetPairs.
Import Torch.

Lemma length_offset_pairs lengths :
  length (zip (asynchronous_complete_cumsum lengths)
              (drop 1 (asynchronous_complete_cumsum lengths)))
  = length lengths.
Proof.
  unfold asynchronous_complete_cumsum.
  rewrite length_zip_with, length_drop, length_cumsum_from. lia.
Qed.

Lemma lookup_offset_pairs lengths (i : nat) len :
  lengths !! i = Some len →
  zip (asynchronous_complete_cumsum lengths)
      (drop 1 (asynchronous_complete_cumsum lengths)) !! i
  = Some (sum_Z (take i lengths), sum_Z (take i lengths) + len).
Proof.
  intros Hi. pose proof (lookup_lt_Some _ _ _ Hi) as Hlt.
  unfold asynchronous_complete_cumsum.
  rewrite lookup_zip_with, lookup_drop.
  rewrite !lookup_cumsum_from by lia. simpl.
  replace (1 + i)%nat with (S i) by lia.
  by rewrite (sum_Z_take_S _ _ _ Hi).
Qed.

(** A slice that lies inside the buffer has the length its bounds give. *)
Lemma length_slice {V} (l : list V) a b :
  0 ≤ a → a ≤ b → b ≤ Z.of_nat (length l) →
  length (slice l a b) = Z.to_nat (b - a).
Proof.
  intros. unfold slice. rewrite length_take, length_drop. lia.
Qed.

Lemma length_content_slice {V} (right : list V) lengths (i : nat) len :
  Forall (λ len, 0 ≤ len) lengths →
  Z.of_nat (length right) = sum_Z lengths →
  lengths !! i = Some len →
  Z.of_nat (length (slice right (sum_Z (take i lengths))
                      (sum_Z (take i lengths) + len))) = len.
Proof.
  intros Hnn Hsum Hi.
  pose proof (lookup_lt_Some _ _ _ Hi) as Hlt.
  assert (0 ≤ len) by (by eapply (Forall_lookup_1 _ _ _ _ Hnn)).
  assert (0 ≤ sum_Z (take i lengths))
    by (by apply sum_Z_nonneg, Forall_take).
  pose proof (sum_Z_take_mono lengths (S i) (length lengths) Hnn) as Hle.
  rewrite firstn_all, (sum_Z_take_S _ _ _ Hi) in Hle.
  rewrite length_slice; lia.
Qed.
End OffsetPairs.

Section MergedLayout.
Import Torch.
Context {V : Type}.
Implicit Types (rows : list (list V)) (right row : list V)
  (lengths : list Z).

Lemma lookup_merged_pieces rows right lengths (i : nat) row len :
  rows !! i = Some row → lengths !! i = Some len →
  merged_pieces rows right (asynchronous_complete_cumsum lengths) !! i
  = Some (row ++ slice right (sum_Z (take i lengths))
                             (sum_Z (take i lengths) + len)).
Proof.
  intros Hrow Hlen. unfold merged_pieces.
  by rewrite lookup_zip_with, Hrow, (lookup_offset_pairs _ _ _ Hlen).
Qed.

Lemma merged_pieces_lengths rows right (C : nat) lengths :
  Forall (λ r, length r = C) rows → length rows = length lengths →
  Forall (λ len, 0 ≤ len) lengths →
  Z.of_nat (length right) = sum_Z lengths →
  (λ r, Z.of_nat (length r))
    <$> merged_pieces rows right (asynchronous_complete_cumsum lengths)
  = (λ len, len + Z.of_nat C) <$> lengths.
Proof.
  intros Hrows Hsame Hnn Hsum. apply list_eq. intros i.
  rewrite !list_lookup_fmap.
  destruct (lengths !! i) as [len|] eqn:Hlen.
  - destruct (lookup_lt_is_Some_2 rows i) as [row Hrow].
    { rewrite Hsame. by eapply lookup_lt_Some. }
    rewrite (lookup_merged_pieces _ _ _ _ _ _ Hrow Hlen). simpl. f_equal.
    rewrite length_app, Nat2Z.inj_add.
    rewrite (length_content_slice _ _ _ _ Hnn Hsum Hlen).
    rewrite (Forall_lookup_1 _ _ _ _ Hrows Hrow). lia.
  - simpl. rewrite lookup_ge_None_2; [done|].
    unfold merged_pieces. rewrite length_zip_with, length_offset_pairs.
    apply lookup_ge_None_1 in Hlen. lia.
Qed.

Lemma merged_layout rows right (C : nat) mlr lengths (i : nat) row len :
  Forall (λ r, length r = C) rows → length rows = length lengths →
  Forall (λ len, 0 ≤ len) lengths →
  Z.of_nat (length right) = sum_Z lengths →
  rows !! i = Some row → lengths !! i = Some len →
  ∃ o n,
    asynchronous_complete_cumsum lengths !! i = Some o ∧
    asynchronous_complete_cumsum lengths !! S i = Some (o + len) ∧
    asynchronous_complete_cumsum ((λ len, len + Z.of_nat C) <$> lengths) !! i
      = Some n ∧
    asynchronous_complete_cumsum ((λ len, len + Z.of_nat C) <$> lengths)
      !! S i = Some (n + (len + Z.of_nat C)) ∧
    slice (Jagged.concat_2D_jagged (mjoin rows) right C mlr
             (asynchronous_complete_cumsum lengths))
          n (n + (len + Z.of_nat C))
      = row ++ slice right o (o + len) ∧
    Z.of_nat (length (slice right o (o + len))) = len.
Proof.
  intros Hrows Hsame Hnn Hsum Hrow Hlen.
  pose proof (lookup_lt_Some _ _ _ Hlen) as Hlt.
  set (new_lengths := (λ len, len + Z.of_nat C) <$> lengths).
  assert (Hnew : new_lengths !! i = Some (len + Z.of_nat C)).
  { unfold new_lengths. by rewrite list_lookup_fmap, Hlen. }
  exists (sum_Z (take i lengths)), (sum_Z (take i new_lengths)).
  unfold asynchronous_complete_cumsum.
  rewrite !lookup_cumsum_from
    by (unfold new_lengths; rewrite ?length_fmap; lia).
  rewrite (sum_Z_take_S _ _ _ Hlen), (sum_Z_take_S _ _ _ Hnew).
  split_and!; try (f_equal; lia).
  - rewrite <-(sum_Z_take_S _ _ _ Hnew).
    fold (asynchronous_complete_cumsum lengths).
    rewrite concat_2D_jagged_rows; [|done|].
    2:{ unfold asynchronous_complete_cumsum.
        rewrite length_cumsum_from. lia. }
    fold (merged_pieces rows right (asynchronous_complete_cumsum lengths)).
    unfold new_lengths.
    rewrite <-(merged_pieces_lengths rows right C lengths) by done.
    apply slice_mjoin. by apply lookup_merged_pieces.
  - by apply length_content_slice.
Qed.
End MergedLayout.

(** ** Padding *)

Section PaddingFacts.
Import Torch Jagged.
Context {V : Type}.
Implicit Types (values row : list V) (offsets : list Z) (fill : V).

Lemma length_pad_row values (m : nat) fill o o' :
  length (pad_row values m fill o o') = m.
Proof.
  unfold pad_row. rewrite length_app, length_replicate, length_take. lia.
Qed.

Lemma pad_row_slice values (m : nat) fill o o' :
  0 ≤ o → o ≤ o' → o' ≤ Z.of_nat (length values) →
  o' - o ≤ Z.of_nat m →
  pad_row values m fill o o' =
  slice values o o' ++ replicate (m - Z.to_nat (o' - o)) fill.
Proof.
  intros Ho Hoo Hin Hfit. unfold pad_row, slice.
  replace (Z.to_nat (o' - o) `min` m)%nat with (Z.to_nat (o' - o)) by lia.
  do 2 f_equal. rewrite length_take, length_drop. lia.
Qed.

Lemma Forall_pad_row (P : V → Prop) values (m : nat) fill o o' :
  Forall P values → P fill → Forall P (pad_row values m fill o o').
Proof.
  intros Hvalues Hfill. unfold pad_row. apply Forall_app. split.
  - by apply Forall_take, Forall_drop.
  - by apply Forall_replicate.
Qed.

Lemma length_jagged_to_padded_dense values offsets (m : nat) fill :
  length (jagged_to_padded_dense values offsets m fill)
  = pred (length offsets).
Proof.
  unfold jagged_to_padded_dense. rewrite length_zip_with, length_drop. lia.
Qed.

Lemma lookup_jagged_to_padded_dense values offsets (m : nat) fill
    (i : nat) o o' :
  offsets !! i = Some o → offsets !! S i = Some o' →
  jagged_to_padded_dense values offsets m fill !! i
  = Some (pad_row values m fill o o').
Proof.
  intros Ho Ho'. unfold jagged_to_padded_dense.
  rewrite lookup_zip_with, lookup_drop, Ho.
  change (1 + i)%nat with (S i). by rewrite Ho'.
Qed.

Lemma Forall_jagged_to_padded_dense (P : V → Prop) values offsets
    (m : nat) fill :
  Forall P values → P fill →
  Forall (Forall P) (jagged_to_padded_dense values offsets m fill).
Proof.
  intros Hvalues Hfill. apply Forall_lookup_2. intros i row Hrow.
  unfold jagged_to_padded_dense in Hrow.
  rewrite lookup_zip_with in Hrow.
  destruct (offsets !! i) as [o|]; [|done].
  destruct (drop 1 offsets !! i) as [o'|]; [|done].
  simplify_eq/=. by apply Forall_pad_row.
Qed.
End PaddingFacts.

(** ** Concatenation along the feature axis *)

Section CatFacts.
Context {A : Type}.
Implicit Types (blocks : list (list (list A))) (rows : list (list A)).

Lemma cat_dim1_cons blk blocks :
  blocks ≠ [] →
  Torch.cat_dim1 (blk :: blocks) = zip_with app blk (Torch.cat_dim1 blocks).
Proof. by destruct blocks. Qed.

(** Row [b] of the concatenation along axis 1 is the concatenation of the
    rows [b] of the blocks. *)
Lemma lookup_cat_dim1 blocks rows (b : nat) :
  blocks ≠ [] →
  Forall2 (λ blk r, blk !! b = Some r) blocks rows →
  Torch.cat_dim1 blocks !! b = Some (mjoin rows).
Proof.
  intros Hne Hrows. induction Hrows as [|blk r blocks rows Hr Hrows IH];
    [done|].
  destruct (decide (blocks = [])) as [->|Hne'].
  - apply Forall2_nil_inv_l in Hrows as ->. simpl.
    by rewrite Hr, app_nil_r.
  - rewrite cat_dim1_cons, lookup_zip_with, Hr, (IH Hne') by done. done.
Qed.

Lemma lookup_cat_dim1_inv blocks (b : nat) row :
  Torch.cat_dim1 blocks !! b = Some row →
  ∃ rows, Forall2 (λ blk r, blk !! b = Some r) blocks rows ∧
          row = mjoin rows.
Proof.
  revert row. induction blocks as [|blk blocks IH]; intros row Hrow;
    [done|].
  destruct (decide (blocks = [])) as [->|Hne].
  - exists [row]. simpl in *. split; [by repeat constructor|].
    by rewrite app_nil_r.
  - rewrite cat_dim1_cons, lookup_zip_with in Hrow by done.
    destruct (blk !! b) as [r|] eqn:Hr; [|done]. simpl in Hrow.
    destruct (Torch.cat_dim1 blocks !! b) as [row'|] eqn:Hrow'; [|done].
    simplify_eq/=. destruct (IH _ eq_refl) as (rows & Hrows & ->).
    exists (r :: rows). split; [by constructor|done].
Qed.

Lemma cat_dim1_shape (B : nat) blocks (widths : list nat) :
  blocks ≠ [] →
  Forall2 (λ blk w, length blk = B ∧ Forall (λ r, length r = w) blk)
          blocks widths →
  length (Torch.cat_dim1 blocks) = B ∧
  Forall (λ r, length r = sum_list widths) (Torch.cat_dim1 blocks).
Proof.
  intros Hne Hshape.
  induction Hshape as [|blk w blocks widths [Hlen Hw] Hshape IH]; [done|].
  destruct (decide (blocks = [])) as [->|Hne'].
  - apply Forall2_nil_inv_l in Hshape as ->. simpl. split; [done|].
    eapply Forall_impl; [exact Hw|]. intros r Hr. simpl in Hr. lia.
  - destruct (IH Hne') as [IHlen IHw]. rewrite cat_dim1_cons by done.
    split; [rewrite length_zip_with; lia|].
    apply Forall_lookup_2. intros b row Hrow.
    rewrite lookup_zip_with in Hrow.
    destruct (blk !! b) as [r|] eqn:Hr; [|done]. simpl in Hrow.
    destruct (Torch.cat_dim1 blocks !! b) as [row'|] eqn:Hrow'; [|done].
    simplify_eq/=. rewrite length_app.
    rewrite (Forall_lookup_1 _ _ _ _ Hw Hr).
    by rewrite (Forall_lookup_1 _ _ _ _ IHw Hrow').
Qed.

Lemma length_mjoin_uniform (n : nat) rows :
  Forall (λ r, length r = n) rows →
  length (mjoin rows) = (length rows * n)%nat.
Proof.
  induction 1 as [|r rows Hr _ IH]; [done|].
  simpl. rewrite length_app, IH, Hr. lia.
Qed.
End CatFacts.

(** ** The dense contextual matrix *)

Section ContextualFacts.
Variables prec emax : Z.
Implicit Types (seq_lengths : list Z) (seq_payloads : gmap string tensor)
  (mins : gmap string Z) (key : string) (v : list (list spec_float)).

Lemma lookup_gate k v seq_lengths (b : nat) :
  gate prec emax k v seq_lengths !! b =
  row ← v !! b; len ← seq_lengths !! b; Some (mask_row prec emax k len row).
Proof. unfold gate. by rewrite lookup_zip_with. Qed.

Lemma length_gate k v seq_lengths :
  length (gate prec emax k v seq_lengths)
  = (length v `min` length seq_lengths)%nat.
Proof. unfold gate. by rewrite length_zip_with. Qed.

Lemma length_flattened_padded d rows offsets (m : nat) :
  length (flattened_padded d rows offsets m) = pred (length offsets).
Proof.
  unfold flattened_padded, Torch.flatten12.
  by rewrite length_fmap, length_jagged_to_padded_dense.
Qed.

Lemma Forall_flattened_padded (P : spec_float → Prop) d rows offsets
    (m : nat) :
  Forall (Forall P) rows → P Torch.f_zero →
  Forall (Forall P) (flattened_padded d rows offsets m).
Proof.
  intros Hrows Hzero. unfold flattened_padded, Torch.flatten12.
  apply Forall_fmap, Forall_lookup_2. intros i row Hrow. simpl.
  apply Forall_join.
  eapply (Forall_lookup_1 _ _ _ _
            (Forall_jagged_to_padded_dense (Forall P) rows offsets m
               (replicate d Torch.f_zero) Hrows
               (Forall_replicate _ _ _ Hzero))).
  exact Hrow.
Qed.

Lemma width_flattened_padded d rows offsets (m : nat) :
  Forall (λ r, length r = d) rows →
  Forall (λ r, length r = (m * d)%nat) (flattened_padded d rows offsets m).
Proof.
  intros Hrows. unfold flattened_padded, Torch.flatten12.
  apply Forall_fmap, Forall_lookup_2. intros i row Hrow. simpl.
  unfold Torch.flatten01.
  assert (Hlen : length row = m).
  { unfold Jagged.jagged_to_padded_dense in Hrow.
    rewrite lookup_zip_with in Hrow.
    destruct (offsets !! i) as [o|]; [|done].
    destruct (drop 1 offsets !! i) as [o'|]; [|done].
    simplify_eq/=. apply length_pad_row. }
  rewrite (length_mjoin_uniform d), Hlen; [done|].
  eapply (Forall_lookup_1 _ _ _ _
            (Forall_jagged_to_padded_dense (λ r, length r = d) rows offsets m
               (replicate d Torch.f_zero) Hrows (length_replicate _ _))).
  exact Hrow.
Qed.

(** What [padded_feature] returns once the two payload entries are
    found. *)
Lemma padded_feature_found seq_lengths seq_payloads mins key (m : nat)
    d rows offsets :
  seq_payloads !! key = Some (FloatTensor d rows) →
  seq_payloads !! (key +:+ "_offsets") = Some (IntTensor offsets) →
  padded_feature prec emax seq_lengths seq_payloads mins key m =
  Some (if bool_decide (0 < default 0 (mins !! key))
        then gate prec emax (default 0 (mins !! key))
               (flattened_padded d rows offsets m) seq_lengths
        else flattened_padded d rows offsets m).
Proof.
  intros Hvalues Hoffsets. unfold padded_feature.
  rewrite Hvalues, Hoffsets. simpl. by case_bool_decide.
Qed.

Lemma feature_payload_ok_inv (B Din : nat) seq_payloads key :
  feature_payload_ok B Din seq_payloads key = true →
  ∃ rows offsets,
    seq_payloads !! key = Some (FloatTensor Din rows) ∧
    seq_payloads !! (key +:+ "_offsets") = Some (IntTensor offsets) ∧
    Forall (λ r, length r = Din) rows ∧ length offsets = S B.
Proof.
  unfold feature_payload_ok. intros Hok.
  destruct (seq_payloads !! key) as [[d rows|]|]; try done.
  destruct (seq_payloads !! (key +:+ "_offsets")) as [[|offsets]|];
    try done.
  apply andb_prop in Hok as [[Hd Hrows]%andb_prop Hoffsets].
  apply bool_decide_eq_true in Hd, Hoffsets. subst d.
  exists rows, offsets. split_and!; try done.
  apply Forall_forall. intros r Hr.
  rewrite forallb_forall in Hrows.
  apply list_elem_of_In, Hrows, bool_decide_eq_true in Hr. done.
Qed.

Lemma padded_feature_shape (B Din : nat) seq_lengths seq_payloads mins key
    (m : nat) :
  feature_payload_ok B Din seq_payloads key = true →
  length seq_lengths = B →
  ∃ v, padded_feature prec emax seq_lengths seq_payloads mins key m = Some v
       ∧ length v = B ∧ Forall (λ r, length r = (m * Din)%nat) v.
Proof.
  intros (rows & offsets & Hvalues & Hoffsets & Hrows & Hlen)%feature_payload_ok_inv HB.
  rewrite (padded_feature_found _ _ _ _ _ _ _ _ Hvalues Hoffsets).
  eexists. split; [done|].
  pose proof (length_flattened_padded Din rows offsets m) as Hlen'.
  pose proof (width_flattened_padded Din rows offsets m Hrows) as Hw.
  rewrite Hlen in Hlen'. simpl in Hlen'.
  case_bool_decide; [|done].
  split; [rewrite length_gate; lia|].
  apply Forall_lookup_2. intros b row Hrow.
  rewrite lookup_gate in Hrow.
  destruct (flattened_padded Din rows offsets m !! b) as [r|] eqn:Hr;
    [|done].
  simpl in Hrow.
  destruct (seq_lengths !! b) as [len|]; [|done]. simplify_eq/=.
  unfold mask_row. rewrite length_fmap.
  by apply (Forall_lookup_1 _ _ _ _ Hw Hr).
Qed.

(** Under the shape contract the dense contextual matrix exists, has one
    row per example and [C * Din] columns. *)
Lemma contextual_input_embeddings_shape (B Din : nat) seq_lengths
    seq_payloads (features : list (string * nat)) mins :
  features ≠ [] →
  payloads_ok B Din seq_payloads features = true →
  length seq_lengths = B →
  ∃ dense,
    _get_contextual_input_embeddings prec emax seq_lengths seq_payloads
      features mins = Some dense ∧
    length dense = B ∧
    Forall (λ r, length r = (sum_list features.*2 * Din)%nat) dense.
Proof.
  intros Hne Hok HB. unfold _get_contextual_input_embeddings.
  assert (∃ blocks,
    Forall2 (λ kv blk,
      padded_feature prec emax seq_lengths seq_payloads mins kv.1 kv.2
        = Some blk) features blocks ∧
    Forall2 (λ blk w, length blk = B ∧ Forall (λ r, length r = w) blk)
      blocks ((λ kv, kv.2 * Din)%nat <$> features))
    as (blocks & Hblocks & Hshape).
  { clear Hne. unfold payloads_ok in Hok.
    induction features as [|[key m] features IH].
    - exists []. by split; constructor.
    - simpl in Hok. apply andb_prop in Hok as [Hkey Hok].
      destruct (IH Hok) as (blocks & Hblocks & Hshape).
      destruct (padded_feature_shape B Din seq_lengths seq_payloads mins
                  key m Hkey HB) as (v & Hv & Hlen & Hw).
      exists (v :: blocks). rewrite fmap_cons.
      split; constructor; simpl; done. }
  apply mapM_Some in Hblocks as Hmap. rewrite Hmap. simpl.
  assert (blocks ≠ []) as Hne'.
  { intros ->. apply Forall2_nil_inv_r in Hblocks. done. }
  destruct (cat_dim1_shape B blocks _ Hne' Hshape) as [Hlen Hw].
  eexists. split_and!; [done|done|].
  eapply Forall_impl; [exact Hw|]. intros r ->. simpl.
  clear. induction features as [|[key m] features IH]; [done|].
  rewrite !fmap_cons. simpl. rewrite IH. lia.
Qed.
End ContextualFacts.

(** ** The two branches of [forward] *)

Section ForwardFacts.
Variables prec emax : Z.
Context {Ts : Type} (ts_zero : Ts).
Implicit Types (self : ContextualPreprocessor) (seq_lengths : list Z)
  (seq_timestamps : list Ts) (seq_embeddings : list (list spec_float))
  (num_targets : list Z) (seq_payloads : gmap string tensor).

Lemma forward_without_contextual self max_seq_len seq_lengths seq_timestamps
    seq_embeddings num_targets seq_payloads :
  _max_contextual_seq_len self = 0%nat →
  forward prec emax ts_zero self max_seq_len seq_lengths seq_timestamps
    seq_embeddings num_targets seq_payloads =
  Some {|
    output_max_seq_len := max_seq_len;
    output_seq_lengths := seq_lengths;
    output_seq_offsets := Torch.asynchronous_complete_cumsum seq_lengths;
    output_seq_timestamps := seq_timestamps;
    output_seq_embeddings := _content_embedding_mlp self seq_embeddings;
    output_num_targets := num_targets;
    output_seq_payloads := seq_payloads |}.
Proof.
  intros HC. unfold forward. rewrite HC.
  by rewrite bool_decide_eq_false_2 by lia.
Qed.

Lemma forward_with_contextual self max_seq_len seq_lengths seq_timestamps
    seq_embeddings num_targets seq_payloads dense :
  (0 < _max_contextual_seq_len self)%nat →
  _get_contextual_input_embeddings prec emax seq_lengths seq_payloads
    (_contextual_feature_to_max_length self)
    (_contextual_feature_to_min_uih_length self) = Some dense →
  forward prec emax ts_zero self max_seq_len seq_lengths seq_timestamps
    seq_embeddings num_targets seq_payloads =
  let C := _max_contextual_seq_len self in
  let offsets := Torch.asynchronous_complete_cumsum seq_lengths in
  let new_lengths := (λ len, len + Z.of_nat C) <$> seq_lengths in
  Some {|
    output_max_seq_len := max_seq_len + Z.of_nat C;
    output_seq_lengths := new_lengths;
    output_seq_offsets := Torch.asynchronous_complete_cumsum new_lengths;
    output_seq_timestamps :=
      Torch.squeeze_last
        (Jagged.concat_2D_jagged
           (replicate (length seq_lengths * C) [ts_zero])
           (Torch.unsqueeze_last seq_timestamps) C max_seq_len offsets);
    output_seq_embeddings :=
      Jagged.concat_2D_jagged
        (Torch.flatten01 (project_contextual prec emax self dense))
        (_content_embedding_mlp self seq_embeddings) C max_seq_len offsets;
    output_num_targets := num_targets;
    output_seq_payloads := seq_payloads |}.
Proof.
  intros HC Hdense. unfold forward.
  rewrite bool_decide_eq_true_2 by done. by rewrite Hdense.
Qed.

Lemma features_nonempty self :
  (0 < _max_contextual_seq_len self)%nat →
  _contextual_feature_to_max_length self ≠ [].
Proof.
  unfold _max_contextual_seq_len. intros HC Hnil.
  rewrite Hnil in HC. simpl in HC. lia.
Qed.
End ForwardFacts.

(** ** Prefix sums on fixed-width integers *)

Section FixedWidth.
Variable w : Z.
Hypothesis w_pos : 0 < w.






End FixedWidth.

(** ** Lengths, offsets and pass-through values *)

Section ForwardBookkeeping.
Variables prec emax : Z.
Context {Ts : Type} (ts_zero : Ts).
Implicit Types (self : ContextualPreprocessor) (seq_lengths : list Z)
  (seq_timestamps : list Ts) (seq_embeddings : list (list spec_float))
  (num_targets : list Z) (seq_payloads : gmap string tensor).

(** C4. When the total contextual width is 0, [forward] returns
    [max_seq_len], the lengths, the timestamps, [num_targets] and the
    payloads it was given, the prefix sum of the input lengths as
    offsets, and the content MLP applied to the input embeddings as
    embeddings: the result mentions neither the concatenation nor the
    slot projection. *)
Theorem forward_zero_contextual_width self max_seq_len seq_lengths
    seq_timestamps seq_embeddings num_targets seq_payloads :
  _max_contextual_seq_len self = 0%nat →
  ∃ out,
    forward prec emax ts_zero self max_seq_len seq_lengths seq_timestamps
      seq_embeddings num_targets seq_payloads = Some out ∧
    output_max_seq_len out = max_seq_len ∧
    output_seq_lengths out = seq_lengths ∧
    output_seq_timestamps out = seq_timestamps ∧
    output_num_targets out = num_targets ∧
    output_seq_payloads out = seq_payloads ∧
    output_seq_offsets out = Torch.asynchronous_complete_cumsum seq_lengths ∧
    output_seq_embeddings out = _content_embedding_mlp self seq_embeddings.
Proof.
  intros HC. eexists. split; [by apply forward_without_contextual|].
  by split_and!.
Qed.

(** C5. When the total contextual width [C] is positive and the
    contextual features are found in the payloads, [forward] returns
    [max_seq_len + C], every length grown by [C], and the prefix sum of
    the new lengths as offsets. *)
Theorem forward_grows_by_contextual_width self max_seq_len seq_lengths
    seq_timestamps seq_embeddings num_targets seq_payloads :
  (0 < _max_contextual_seq_len self)%nat →
  is_Some (_get_contextual_input_embeddings prec emax seq_lengths
             seq_payloads (_contextual_feature_to_max_length self)
             (_contextual_feature_to_min_uih_length self)) →
  ∃ out,
    forward prec emax ts_zero self max_seq_len seq_lengths seq_timestamps
      seq_embeddings num_targets seq_payloads = Some out ∧
    output_max_seq_len out
      = max_seq_len + Z.of_nat (_max_contextual_seq_len self) ∧
    length (output_seq_lengths out) = length seq_lengths ∧
    (∀ i len, seq_lengths !! i = Some len →
       output_seq_lengths out !! i
         = Some (len + Z.of_nat (_max_contextual_seq_len self))) ∧
    output_seq_offsets out
      = Torch.asynchronous_complete_cumsum (output_seq_lengths out).
Proof.
  intros HC [dense Hdense]. eexists.
  split; [by eapply forward_with_contextual|]. simpl.
  split_and!; [done|by rewrite length_fmap| |done].
  intros i len Hlen. by rewrite list_lookup_fmap, Hlen.
Qed.

(** C6. Whenever [forward] returns, that is when the contextual width is
    0 or the contextual features are found in the payloads, the
    [num_targets] and the [seq_payloads] of its result are the ones it
    was given. *)
Theorem forward_passes_targets_and_payloads self max_seq_len seq_lengths
    seq_timestamps seq_embeddings num_targets seq_payloads :
  ((0 < _max_contextual_seq_len self)%nat →
   is_Some (_get_contextual_input_embeddings prec emax seq_lengths
              seq_payloads (_contextual_feature_to_max_length self)
              (_contextual_feature_to_min_uih_length self))) →
  ∃ out,
    forward prec emax ts_zero self max_seq_len seq_lengths seq_timestamps
      seq_embeddings num_targets seq_payloads = Some out ∧
    output_num_targets out = num_targets ∧
    output_seq_payloads out = seq_payloads.
Proof.
  intros Hfound.
  destruct (decide (0 < _max_contextual_seq_len self)%nat) as [HC|HC].
  - destruct (Hfound HC) as [dense Hdense]. eexists.
    split; [by eapply forward_with_contextual|done].
  - eexists. split; [apply forward_without_contextual; lia|done].
Qed.

End ForwardBookkeeping.


(** ** Layout of the merged sequences *)

Section ForwardLayout.
Variables prec emax : Z.
Context {Ts : Type} (ts_zero : Ts).
Implicit Types (self : ContextualPreprocessor) (seq_lengths : list Z)
  (seq_timestamps : list Ts) (seq_embeddings : list (list spec_float))
  (num_targets : list Z) (seq_payloads : gmap string tensor).

(** The layout of the embeddings [forward] returns when contextual
    features are prepended. *)
Lemma forward_embeddings_layout self max_seq_len seq_lengths
    seq_timestamps seq_embeddings num_targets seq_payloads :
  let C := _max_contextual_seq_len self in
  let content := _content_embedding_mlp self seq_embeddings in
  let offsets := Torch.asynchronous_complete_cumsum seq_lengths in
  (0 < C)%nat →
  slot_parameters_ok self = true →
  payloads_ok (length seq_lengths) (_input_embedding_dim self) seq_payloads
    (_contextual_feature_to_max_length self) = true →
  Forall (λ len, 0 ≤ len) seq_lengths →
  Z.of_nat (length content) = sum_Z seq_lengths →
  ∃ dense out,
    _get_contextual_input_embeddings prec emax seq_lengths seq_payloads
      (_contextual_feature_to_max_length self)
      (_contextual_feature_to_min_uih_length self) = Some dense ∧
    length dense = length seq_lengths ∧
    forward prec emax ts_zero self max_seq_len seq_lengths seq_timestamps
      seq_embeddings num_targets seq_payloads = Some out ∧
    output_seq_embeddings out
      = mjoin (merged_pieces (slot_projection prec emax self <$> dense)
                 content offsets) ∧
    ∀ i row len, dense !! i = Some row → seq_lengths !! i = Some len →
      length (slot_projection prec emax self row) = C ∧
      ∃ o n,
        offsets !! i = Some o ∧ offsets !! S i = Some (o + len) ∧
        output_seq_offsets out !! i = Some n ∧
        output_seq_offsets out !! S i = Some (n + (len + Z.of_nat C)) ∧
        Torch.slice (output_seq_embeddings out) n (n + (len + Z.of_nat C))
          = slot_projection prec emax self row
            ++ Torch.slice content o (o + len) ∧
        Z.of_nat (length (Torch.slice content o (o + len))) = len.
Proof.
  intros C content offsets HC Hparams Hpayloads Hnn Hsum.
  destruct (contextual_input_embeddings_shape prec emax _ _ seq_lengths
              seq_payloads _ (_contextual_feature_to_min_uih_length self)
              (features_nonempty self HC) Hpayloads eq_refl)
    as (dense & Hdense & Hlen & _).
  exists dense. eexists.
  split; [done|]. split; [done|].
  split; [by eapply forward_with_contextual|]. simpl.
  rewrite project_contextual_rows by done. unfold Torch.flatten01.
  fold C content offsets.
  assert (Hrows : Forall (λ r, length r = C)
                    (slot_projection prec emax self <$> dense)).
  { apply Forall_fmap, Forall_true. intros row. simpl.
    by apply length_slot_projection. }
  split.
  - apply concat_2D_jagged_rows; [done|].
    unfold offsets, Torch.asynchronous_complete_cumsum.
    rewrite length_cumsum_from, length_fmap. lia.
  - intros i row len Hrow Hlen_i.
    split; [by apply length_slot_projection|].
    destruct (merged_layout (slot_projection prec emax self <$> dense)
                content C max_seq_len seq_lengths i
                (slot_projection prec emax self row) len)
      as (o & n & Ho & Ho' & Hn & Hn' & Hslice & Hcontent); try done.
    + by rewrite length_fmap.
    + by rewrite list_lookup_fmap, Hrow.
    + by exists o, n.
Qed.

(** C1. With a positive contextual width [C] and inputs that meet the
    shape contract, the embeddings [forward] returns are the examples'
    pieces one after the other in input order, the piece of example [i]
    being its [C] projected contextual vectors followed by its content
    vectors; the piece of example [i] occupies the positions from
    [offsets[i]] to [offsets[i+1]] of the returned offsets. *)
Theorem forward_embeddings_per_example self max_seq_len seq_lengths
    seq_timestamps seq_embeddings num_targets seq_payloads :
  let C := _max_contextual_seq_len self in
  let content := _content_embedding_mlp self seq_embeddings in
  let offsets := Torch.asynchronous_complete_cumsum seq_lengths in
  (0 < C)%nat →
  slot_parameters_ok self = true →
  payloads_ok (length seq_lengths) (_input_embedding_dim self) seq_payloads
    (_contextual_feature_to_max_length self) = true →
  Forall (λ len, 0 ≤ len) seq_lengths →
  Z.of_nat (length content) = sum_Z seq_lengths →
  ∃ dense out,
    _get_contextual_input_embeddings prec emax seq_lengths seq_payloads
      (_contextual_feature_to_max_length self)
      (_contextual_feature_to_min_uih_length self) = Some dense ∧
    length dense = length seq_lengths ∧
    forward prec emax ts_zero self max_seq_len seq_lengths seq_timestamps
      seq_embeddings num_targets seq_payloads = Some out ∧
    output_seq_embeddings out
      = mjoin (merged_pieces (slot_projection prec emax self <$> dense)
                 content offsets) ∧
    ∀ i row len, dense !! i = Some row → seq_lengths !! i = Some len →
      length (slot_projection prec emax self row) = C ∧
      ∃ o n,
        offsets !! i = Some o ∧ offsets !! S i = Some (o + len) ∧
        output_seq_offsets out !! i = Some n ∧
        output_seq_offsets out !! S i = Some (n + (len + Z.of_nat C)) ∧
        Torch.slice (output_seq_embeddings out) n (n + (len + Z.of_nat C))
          = slot_projection prec emax self row
            ++ Torch.slice content o (o + len) ∧
        Z.of_nat (length (Torch.slice content o (o + len))) = len.
Proof. apply forward_embeddings_layout. Qed.

(** C9. With a positive contextual width [C], the timestamps [forward]
    returns are the examples' pieces one after the other, the piece of
    example [i] being [C] zero timestamps followed by the example's own
    timestamps, at the positions the returned offsets give. *)
Theorem forward_timestamps_per_example self max_seq_len seq_lengths
    seq_timestamps seq_embeddings num_targets seq_payloads :
  let C := _max_contextual_seq_len self in
  let offsets := Torch.asynchronous_complete_cumsum seq_lengths in
  (0 < C)%nat →
  is_Some (_get_contextual_input_embeddings prec emax seq_lengths
             seq_payloads (_contextual_feature_to_max_length self)
             (_contextual_feature_to_min_uih_length self)) →
  Forall (λ len, 0 ≤ len) seq_lengths →
  Z.of_nat (length seq_timestamps) = sum_Z seq_lengths →
  ∃ out,
    forward prec emax ts_zero self max_seq_len seq_lengths seq_timestamps
      seq_embeddings num_targets seq_payloads = Some out ∧
    output_seq_timestamps out
      = mjoin (merged_pieces
                 (replicate (length seq_lengths) (replicate C ts_zero))
                 seq_timestamps offsets) ∧
    ∀ i len, seq_lengths !! i = Some len →
      ∃ o n,
        offsets !! i = Some o ∧ offsets !! S i = Some (o + len) ∧
        output_seq_offsets out !! i = Some n ∧
        output_seq_offsets out !! S i = Some (n + (len + Z.of_nat C)) ∧
        Torch.slice (output_seq_timestamps out) n (n + (len + Z.of_nat C))
          = replicate C ts_zero ++ Torch.slice seq_timestamps o (o + len) ∧
        Z.of_nat (length (Torch.slice seq_timestamps o (o + len))) = len.
Proof.
  intros C offsets HC [dense Hdense] Hnn Hsum. eexists.
  split; [by eapply forward_with_contextual|]. simpl. fold C offsets.
  assert (Hts :
    Torch.squeeze_last
      (Jagged.concat_2D_jagged (replicate (length seq_lengths * C) [ts_zero])
         (Torch.unsqueeze_last seq_timestamps) C max_seq_len offsets)
    = Jagged.concat_2D_jagged
        (mjoin (replicate (length seq_lengths) (replicate C ts_zero)))
        seq_timestamps C max_seq_len offsets).
  { unfold Torch.squeeze_last, Torch.unsqueeze_last.
    rewrite mjoin_replicate_replicate.
    rewrite <-(fmap_replicate (λ x, [x])).
    by rewrite concat_2D_jagged_fmap, mjoin_singletons. }
  rewrite Hts.
  assert (Hrows : Forall (λ r, length r = C)
                    (replicate (length seq_lengths) (replicate C ts_zero))).
  { apply Forall_replicate, length_replicate. }
  split.
  - apply concat_2D_jagged_rows; [done|].
    unfold offsets, Torch.asynchronous_complete_cumsum.
    rewrite length_cumsum_from, length_replicate. lia.
  - intros i len Hlen_i.
    pose proof (lookup_lt_Some _ _ _ Hlen_i) as Hlt.
    destruct (merged_layout
                (replicate (length seq_lengths) (replicate C ts_zero))
                seq_timestamps C max_seq_len seq_lengths i
                (replicate C ts_zero) len)
      as (o & n & Ho & Ho' & Hn & Hn' & Hslice & Hcontent); try done.
    + by rewrite length_replicate.
    + by apply lookup_replicate_2.
    + by exists o, n.
Qed.
End ForwardLayout.

(** ** Slot independence *)

Section SlotIndependence.
Variables prec emax : Z.

(** C8. Replacing the weight matrix and the bias vector of one slot [s]
    leaves the projected output of every other slot unchanged, for every
    batch element and every dense contextual matrix. *)
Theorem slot_projection_independent (self : ContextualPreprocessor)
    (dense : list (list spec_float)) (s : nat) W_s bias_s (b s' : nat) :
  s' ≠ s →
  project_contextual prec emax (with_slot_parameters self s W_s bias_s)
    dense !! b ≫= (.!! s')
  = project_contextual prec emax self dense !! b ≫= (.!! s').
Proof.
  intros Hne. unfold project_contextual.
  change (_max_contextual_seq_len (with_slot_parameters self s W_s bias_s))
    with (_max_contextual_seq_len self).
  cbn [with_slot_parameters _output_embedding_dim _input_embedding_dim
       _batched_contextual_linear_bias _batched_contextual_linear_weights].
  destruct (decide (b < length dense)%nat) as [Hb|Hb].
  - rewrite !lookup_transpose01 by done. simpl.
    rewrite !list_lookup_fmap, !lookup_baddbmm.
    by rewrite !list_lookup_insert_ne by done.
  - rewrite !(lookup_ge_None_2 (Torch.transpose01 _ _));
      [done|rewrite length_transpose01; lia..].
Qed.
End SlotIndependence.

(** ** Padding round trip *)

Section PaddingRoundTrip.
Context {V : Type}.

(** C7. For an example whose jagged slice lies inside the value buffer
    and is no longer than [max_length], row [i] of the padded tensor has
    [max_length] entries, its first [length] entries are the jagged slice
    of the example, and every later entry is the fill value. *)
Theorem padding_round_trip (values : list V) (offsets : list Z)
    (max_length : nat) (fill : V) (i : nat) (o o' : Z) :
  offsets !! i = Some o → offsets !! S i = Some o' →
  0 ≤ o → o ≤ o' → o' ≤ Z.of_nat (length values) →
  o' - o ≤ Z.of_nat max_length →
  ∃ row,
    Jagged.jagged_to_padded_dense values offsets max_length fill !! i
      = Some row ∧
    length row = max_length ∧
    take (Z.to_nat (o' - o)) row = Torch.slice values o o' ∧
    ∀ j, (Z.to_nat (o' - o) ≤ j < max_length)%nat → row !! j = Some fill.
Proof.
  intros Ho Ho' Hnn Hle Hin Hfit. eexists.
  split; [by apply lookup_jagged_to_padded_dense|].
  split; [apply length_pad_row|].
  rewrite pad_row_slice by done.
  assert (Hlen : length (Torch.slice values o o') = Z.to_nat (o' - o))
    by (apply length_slice; lia).
  split.
  - by rewrite take_app_length'.
  - intros j Hj. rewrite lookup_app_r by lia.
    apply lookup_replicate_2. lia.
Qed.
End PaddingRoundTrip.

(** ** The minimum-length gate *)

Section MinimumLengthGate.
Variables prec emax : Z.
Hypothesis prec_gt_1 : 1 < prec.
Implicit Types (seq_lengths : list Z) (seq_payloads : gmap string tensor)
  (mins : gmap string Z) (key : string) (row : list spec_float).



Lemma mask_row_keep k len row :
  k ≤ len → Forall (λ x, valid_binary prec emax x = true) row →
  mask_row prec emax k len row = row.
Proof.
  intros Hle Hvalid. unfold mask_row.
  rewrite bool_decide_eq_true_2 by done. simpl.
  induction Hvalid as [|x row Hx _ IH]; [done|].
  rewrite fmap_cons, IH. f_equal. by apply f_mul_one_r.
Qed.

(** The row of a gated feature for an example. *)
Lemma padded_feature_gated_row seq_lengths seq_payloads mins key (m : nat)
    k d rows offsets (b : nat) len :
  seq_payloads !! key = Some (FloatTensor d rows) →
  seq_payloads !! (key +:+ "_offsets") = Some (IntTensor offsets) →
  mins !! key = Some k → 0 < k →
  seq_lengths !! b = Some len →
  (b < pred (length offsets))%nat →
  ∃ padded,
    flattened_padded d rows offsets m !! b = Some padded ∧
    padded_feature prec emax seq_lengths seq_payloads mins key m
      ≫= (.!! b) = Some (mask_row prec emax k len padded).
Proof.
  intros Hvalues Hoffsets Hk Hpos Hlen Hb.
  destruct (lookup_lt_is_Some_2 (flattened_padded d rows offsets m) b)
    as [padded Hpadded]; [by rewrite length_flattened_padded|].
  exists padded. split; [done|].
  rewrite (padded_feature_found _ _ _ _ _ _ _ _ _ _ Hvalues Hoffsets).
  rewrite Hk. simpl. rewrite bool_decide_eq_true_2 by done.
  by rewrite lookup_gate, Hpadded, Hlen.
Qed.
End MinimumLengthGate.

Section GateTheorem.
Variables prec emax : Z.
Implicit Types (seq_lengths : list Z) (seq_payloads : gmap string tensor)
  (mins : gmap string Z) (key : string) (row : list spec_float).

End GateTheorem.


Section GateScope.
Variables prec emax : Z.
Implicit Types (seq_lengths : list Z) (seq_payloads : gmap string tensor)
  (mins : gmap string Z) (key : string) (row : list spec_float)
  (features : list (string * nat)).

Lemma padded_feature_other_key seq_lengths seq_payloads mins X k key
    (m : nat) :
  key ≠ X →
  padded_feature prec emax seq_lengths seq_payloads (<[X := k]> mins) key m
  = padded_feature prec emax seq_lengths seq_payloads mins key m.
Proof.
  intros Hne. unfold padded_feature. by rewrite lookup_insert_ne.
Qed.

(** Row [i] of the dense contextual matrix is made of the rows [i] of the
    features, in the order of the feature dictionary. *)
Lemma dense_row_features seq_lengths seq_payloads features mins dense
    (i : nat) row :
  _get_contextual_input_embeddings prec emax seq_lengths seq_payloads
    features mins = Some dense →
  dense !! i = Some row →
  ∃ rows,
    Forall2 (λ kv r,
               padded_feature prec emax seq_lengths seq_payloads mins
                 kv.1 kv.2 ≫= (.!! i) = Some r) features rows ∧
    row = mjoin rows.
Proof.
  unfold _get_contextual_input_embeddings. intros Hdense Hrow.
  destruct (mapM _ features) as [blocks|] eqn:Hblocks; [|done].
  simplify_eq/=. apply mapM_Some in Hblocks.
  apply lookup_cat_dim1_inv in Hrow as (rows & Hrows & ->).
  exists rows. split; [|done].
  clear -Hblocks Hrows. revert rows Hrows.
  induction Hblocks as [|kv blk features blocks Hblk _ IH];
    intros rows Hrows.
  - apply Forall2_nil_inv_l in Hrows as ->. constructor.
  - apply Forall2_cons_inv_l in Hrows as (r & rows' & Hr & Hrows & ->).
    constructor; [by rewrite Hblk|by apply IH].
Qed.

Lemma feature_rows_agree seq_lengths seq_payloads mins X k features
    (i : nat) rows rows' :
  X ∉ features.*1 →
  Forall2 (λ kv r,
             padded_feature prec emax seq_lengths seq_payloads mins
               kv.1 kv.2 ≫= (.!! i) = Some r) features rows →
  Forall2 (λ kv r,
             padded_feature prec emax seq_lengths seq_payloads
               (<[X := k]> mins) kv.1 kv.2 ≫= (.!! i) = Some r)
          features rows' →
  rows = rows'.
Proof.
  intros HX Hrows. revert rows'.
  induction Hrows as [|[key m] r features rows Hr _ IH]; intros rows' Hrows'.
  - by apply Forall2_nil_inv_l in Hrows' as ->.
  - apply Forall2_cons_inv_l in Hrows' as (r' & rows'' & Hr' & Hrows' & ->).
    rewrite fmap_cons in HX. apply not_elem_of_cons in HX as [Hne HX].
    simpl in *. rewrite padded_feature_other_key in Hr' by done.
    f_equal; [congruence|by apply IH].
Qed.

(** Gating feature [X] changes row [i] of the dense contextual matrix
    inside the columns of [X] only. *)
Lemma gate_changes_own_columns seq_lengths seq_payloads mins X (m : nat) k
    pre post dense dense' (i : nat) row row' :
  X ∉ pre.*1 → X ∉ post.*1 →
  _get_contextual_input_embeddings prec emax seq_lengths seq_payloads
    (pre ++ (X, m) :: post) mins = Some dense →
  _get_contextual_input_embeddings prec emax seq_lengths seq_payloads
    (pre ++ (X, m) :: post) (<[X := k]> mins) = Some dense' →
  dense !! i = Some row → dense' !! i = Some row' →
  ∃ left x x' right,
    row = left ++ x ++ right ∧ row' = left ++ x' ++ right ∧
    padded_feature prec emax seq_lengths seq_payloads mins X m
      ≫= (.!! i) = Some x ∧
    padded_feature prec emax seq_lengths seq_payloads (<[X := k]> mins) X m
      ≫= (.!! i) = Some x'.
Proof.
  intros Hpre Hpost Hdense Hdense' Hrow Hrow'.
  destruct (dense_row_features _ _ _ _ _ _ _ Hdense Hrow)
    as (rows & Hrows & ->).
  destruct (dense_row_features _ _ _ _ _ _ _ Hdense' Hrow')
    as (rows' & Hrows' & ->).
  apply Forall2_app_inv_l in Hrows as (r1 & r2 & H1 & H2 & ->).
  apply Forall2_cons_inv_l in H2 as (x & r3 & Hx & H3 & ->).
  apply Forall2_app_inv_l in Hrows' as (r1' & r2' & H1' & H2' & ->).
  apply Forall2_cons_inv_l in H2' as (x' & r3' & Hx' & H3' & ->).
  rewrite <-(feature_rows_agree _ _ _ _ _ _ _ _ _ Hpre H1 H1').
  rewrite <-(feature_rows_agree _ _ _ _ _ _ _ _ _ Hpost H3 H3').
  exists (mjoin r1), x, x', (mjoin r3).
  by rewrite !join_app.
Qed.
End GateScope.

Section GateFrame.
Variables prec emax : Z.
Context {Ts : Type} (ts_zero : Ts).
Implicit Types (self : ContextualPreprocessor) (seq_lengths : list Z)
  (seq_timestamps : list Ts) (seq_embeddings : list (list spec_float))
  (num_targets : list Z) (seq_payloads : gmap string tensor).

(** C10. Giving feature [X] the minimum history length [k] changes, in
    every row of the dense contextual matrix, the columns of [X] only:
    the columns of the features before and after [X] are the same with
    and without the gate.  The content vectors of every example in the
    embeddings returned by [forward] are the same slice of the content
    embeddings in both runs, and an example whose [seq_length] equals
    [k] keeps the padded row of [X] unchanged. *)
Theorem gate_scoped_per_feature self max_seq_len seq_lengths
    seq_timestamps seq_embeddings num_targets seq_payloads
    X (m : nat) k pre post d rows feature_offsets :
  let C := _max_contextual_seq_len self in
  let content := _content_embedding_mlp self seq_embeddings in
  let offsets := Torch.asynchronous_complete_cumsum seq_lengths in
  let mins := _contextual_feature_to_min_uih_length self in
  let gated := with_min_uih_lengths self (<[X := k]> mins) in
  1 < prec → 0 < k →
  _contextual_feature_to_max_length self = pre ++ (X, m) :: post →
  X ∉ pre.*1 → X ∉ post.*1 →
  (0 < C)%nat →
  slot_parameters_ok self = true →
  payloads_ok (length seq_lengths) (_input_embedding_dim self) seq_payloads
    (_contextual_feature_to_max_length self) = true →
  seq_payloads !! X = Some (FloatTensor d rows) →
  seq_payloads !! (X +:+ "_offsets") = Some (IntTensor feature_offsets) →
  Forall (Forall (λ x, valid_binary prec emax x = true)) rows →
  Forall (λ len, 0 ≤ len) seq_lengths →
  Z.of_nat (length content) = sum_Z seq_lengths →
  ∃ dense dense' out out',
    _get_contextual_input_embeddings prec emax seq_lengths seq_payloads
      (_contextual_feature_to_max_length self) mins = Some dense ∧
    _get_contextual_input_embeddings prec emax seq_lengths seq_payloads
      (_contextual_feature_to_max_length self) (<[X := k]> mins)
      = Some dense' ∧
    forward prec emax ts_zero self max_seq_len seq_lengths seq_timestamps
      seq_embeddings num_targets seq_payloads = Some out ∧
    forward prec emax ts_zero gated max_seq_len seq_lengths seq_timestamps
      seq_embeddings num_targets seq_payloads = Some out' ∧
    ∀ i len, seq_lengths !! i = Some len →
      (∃ row row' left x x' right padded,
         dense !! i = Some row ∧ dense' !! i = Some row' ∧
         row = left ++ x ++ right ∧ row' = left ++ x' ++ right ∧
         padded_feature prec emax seq_lengths seq_payloads mins X m
           ≫= (.!! i) = Some x ∧
         padded_feature prec emax seq_lengths seq_payloads
           (<[X := k]> mins) X m ≫= (.!! i) = Some x' ∧
         flattened_padded d rows feature_offsets m !! i = Some padded ∧
         (len = k → x' = padded)) ∧
      (∃ o n n',
         offsets !! i = Some o ∧
         output_seq_offsets out !! i = Some n ∧
         output_seq_offsets out' !! i = Some n' ∧
         drop C (Torch.slice (output_seq_embeddings out)
                   n (n + (len + Z.of_nat C)))
           = Torch.slice content o (o + len) ∧
         drop C (Torch.slice (output_seq_embeddings out')
                   n' (n' + (len + Z.of_nat C)))
           = Torch.slice content o (o + len)).
Proof.
  intros C content offsets mins gated Hprec Hk Hfeatures Hpre Hpost HC
    Hparams Hpayloads Hvalues Hoffsets Hvalid Hnn Hsum.
  destruct (forward_embeddings_layout prec emax ts_zero self max_seq_len
              seq_lengths seq_timestamps seq_embeddings num_targets
              seq_payloads HC Hparams Hpayloads Hnn Hsum)
    as (dense & out & Hdense & Hlen & Hout & _ & Hlayout).
  destruct (forward_embeddings_layout prec emax ts_zero gated max_seq_len
              seq_lengths seq_timestamps seq_embeddings num_targets
              seq_payloads HC Hparams Hpayloads Hnn Hsum)
    as (dense' & out' & Hdense' & Hlen' & Hout' & _ & Hlayout').
  exists dense, dense', out, out'. split_and!; try done.
  intros i len Hi. pose proof (lookup_lt_Some _ _ _ Hi) as Hlt.
  destruct (lookup_lt_is_Some_2 dense i) as [row Hrow]; [lia|].
  destruct (lookup_lt_is_Some_2 dense' i) as [row' Hrow']; [lia|].
  split.
  - fold mins in Hdense. rewrite Hfeatures in Hdense.
    change (_contextual_feature_to_max_length gated)
      with (_contextual_feature_to_max_length self) in Hdense'.
    change (_contextual_feature_to_min_uih_length gated)
      with (<[X := k]> mins) in Hdense'.
    rewrite Hfeatures in Hdense'.
    destruct (gate_changes_own_columns prec emax _ _ _ _ _ _ _ _ _ _ _ _ _
                Hpre Hpost Hdense Hdense' Hrow Hrow')
      as (left & x & x' & right & -> & -> & Hx & Hx').
    assert (Hfeat : feature_payload_ok (length seq_lengths)
                      (_input_embedding_dim self) seq_payloads X = true).
    { unfold payloads_ok in Hpayloads. rewrite Hfeatures in Hpayloads.
      rewrite forallb_app in Hpayloads.
      apply andb_prop in Hpayloads as [_ Hpayloads].
      simpl in Hpayloads. by apply andb_prop in Hpayloads as [? _]. }
    apply feature_payload_ok_inv in Hfeat
      as (rows0 & offsets0 & Hvalues0 & Hoffsets0 & _ & Hsize).
    rewrite Hoffsets in Hoffsets0. injection Hoffsets0 as <-.
    destruct (padded_feature_gated_row prec emax seq_lengths seq_payloads
                (<[X := k]> mins) X m k d rows feature_offsets i len)
      as (padded & Hpadded & Hgated); try done.
    { by rewrite lookup_insert_eq. }
    { rewrite Hsize. simpl. lia. }
    exists (left ++ x ++ right), (left ++ x' ++ right),
           left, x, x', right, padded.
    split_and!; try done.
    intros ->. rewrite Hx' in Hgated. injection Hgated as ->.
    apply mask_row_keep; [done|lia|].
    by eapply (Forall_lookup_1 _ _ _ _
                 (Forall_flattened_padded _ d rows feature_offsets m
                    Hvalid eq_refl)).
  - destruct (Hlayout i row len Hrow Hi)
      as (Hw & o & n & Ho & _ & Hn & _ & Hslice & _).
    destruct (Hlayout' i row' len Hrow' Hi)
      as (Hw' & o' & n' & Ho' & _ & Hn' & _ & Hslice' & _).
    fold offsets in Ho, Ho'. rewrite Ho in Ho'. injection Ho' as <-.
    exists o, n, n'. split_and!; try done.
    + fold C in Hslice. rewrite Hslice. by apply drop_app_length'.
    + change (_max_contextual_seq_len gated) with C in Hslice', Hw'.
      change (_content_embedding_mlp gated seq_embeddings) with content
        in Hslice'.
      rewrite Hslice'. by apply drop_app_length'.
Qed.
End GateFrame.

(** ** The theorems at the worked batch *)

Section Witnesses.
Import Worked.

Lemma forward_zero_contextual_width_witness :
  ∃ out,
    run plain = Some out ∧
    output_max_seq_len out = max_seq_len ∧
    output_seq_lengths out = seq_lengths ∧
    output_seq_timestamps out = seq_timestamps ∧
    output_num_targets out = num_targets ∧
    output_seq_payloads out = seq_payloads ∧
    output_seq_offsets out = Torch.asynchronous_complete_cumsum seq_lengths ∧
    output_seq_embeddings out = seq_embeddings.
Proof. apply (forward_zero_contextual_width 24 128 0 plain). reflexivity. Defined.

Lemma forward_grows_by_contextual_width_witness :
  ∃ out,
    run self = Some out ∧
    output_max_seq_len out = 8 ∧
    length (output_seq_lengths out) = 2%nat ∧
    (∀ i len, seq_lengths !! i = Some len →
       output_seq_lengths out !! i = Some (len + 3)) ∧
    output_seq_offsets out
      = Torch.asynchronous_complete_cumsum (output_seq_lengths out).
Proof.
  apply (forward_grows_by_contextual_width 24 128 0 self);
    [vm_compute; lia|vm_compute; eauto].
Defined.

Lemma forward_passes_targets_and_payloads_witness :
  ∃ out,
    run self = Some out ∧
    output_num_targets out = num_targets ∧
    output_seq_payloads out = seq_payloads.
Proof.
  apply (forward_passes_targets_and_payloads 24 128 0 self).
  intros _. vm_compute. eauto.
Defined.


Lemma forward_embeddings_per_example_witness :
  ∃ dense out,
    contextual = Some dense ∧
    length dense = length seq_lengths ∧
    run self = Some out ∧
    output_seq_embeddings out
      = mjoin (merged_pieces (slot_projection 24 128 self <$> dense)
                 seq_embeddings [0; 2; 5]) ∧
    ∀ i row len, dense !! i = Some row → seq_lengths !! i = Some len →
      length (slot_projection 24 128 self row) = 3%nat ∧
      ∃ o n,
        [0; 2; 5] !! i = Some o ∧ [0; 2; 5] !! S i = Some (o + len) ∧
        output_seq_offsets out !! i = Some n ∧
        output_seq_offsets out !! S i = Some (n + (len + 3)) ∧
        Torch.slice (output_seq_embeddings out) n (n + (len + 3))
          = slot_projection 24 128 self row
            ++ Torch.slice seq_embeddings o (o + len) ∧
        Z.of_nat (length (Torch.slice seq_embeddings o (o + len))) = len.
Proof.
  apply (forward_embeddings_per_example 24 128 0 self max_seq_len
           seq_lengths seq_timestamps seq_embeddings num_targets
           seq_payloads);
    [vm_compute; lia|reflexivity|reflexivity
    |repeat constructor; lia|reflexivity].
Defined.

Lemma forward_timestamps_per_example_witness :
  ∃ out,
    run self = Some out ∧
    output_seq_timestamps out
      = mjoin (merged_pieces (replicate 2 (replicate 3 0))
                 seq_timestamps [0; 2; 5]) ∧
    ∀ i len, seq_lengths !! i = Some len →
      ∃ o n,
        [0; 2; 5] !! i = Some o ∧ [0; 2; 5] !! S i = Some (o + len) ∧
        output_seq_offsets out !! i = Some n ∧
        output_seq_offsets out !! S i = Some (n + (len + 3)) ∧
        Torch.slice (output_seq_timestamps out) n (n + (len + 3))
          = replicate 3 0 ++ Torch.slice seq_timestamps o (o + len) ∧
        Z.of_nat (length (Torch.slice seq_timestamps o (o + len))) = len.
Proof.
  apply (forward_timestamps_per_example 24 128 0 self max_seq_len
           seq_lengths seq_timestamps seq_embeddings num_targets
           seq_payloads);
    [vm_compute; lia|vm_compute; eauto
    |repeat constructor; lia|reflexivity].
Defined.

Lemma slot_projection_independent_witness :
  project_contextual 24 128
    (with_slot_parameters self 1 [[four; four]; [four; four]] [three; three])
    [[one; two; one; one; two; two]] !! 0%nat ≫= (.!! 2%nat)
  = project_contextual 24 128 self
      [[one; two; one; one; two; two]] !! 0%nat ≫= (.!! 2%nat).
Proof. apply slot_projection_independent. lia. Defined.

Lemma padding_round_trip_witness :
  ∃ row,
    Jagged.jagged_to_padded_dense geo_values [0; 1; 3] 2 [Torch.f_zero; Torch.f_zero]
      !! 0%nat = Some row ∧
    length row = 2%nat ∧
    take (Z.to_nat (1 - 0)) row = Torch.slice geo_values 0 1 ∧
    ∀ j, (Z.to_nat (1 - 0) ≤ j < 2)%nat →
         row !! j = Some [Torch.f_zero; Torch.f_zero].
Proof.
  apply (padding_round_trip geo_values [0; 1; 3] 2
           [Torch.f_zero; Torch.f_zero] 0 0 1);
    [reflexivity|reflexivity|lia|lia|simpl; lia|lia].
Defined.


Lemma gate_scoped_per_feature_witness :
  ∃ dense dense' out out',
    contextual = Some dense ∧
    _get_contextual_input_embeddings 24 128 seq_lengths seq_payloads
      features (<["geo" := 2]> min_uih_lengths) = Some dense' ∧
    run self = Some out ∧
    run (with_min_uih_lengths self (<["geo" := 2]> min_uih_lengths))
      = Some out' ∧
    ∀ i len, seq_lengths !! i = Some len →
      (∃ row row' left x x' right padded,
         dense !! i = Some row ∧ dense' !! i = Some row' ∧
         row = left ++ x ++ right ∧ row' = left ++ x' ++ right ∧
         padded_feature 24 128 seq_lengths seq_payloads min_uih_lengths
           "geo" 2 ≫= (.!! i) = Some x ∧
         padded_feature 24 128 seq_lengths seq_payloads
           (<["geo" := 2]> min_uih_lengths) "geo" 2 ≫= (.!! i) = Some x' ∧
         flattened_padded 2 geo_values [0; 1; 3] 2 !! i = Some padded ∧
         (len = 2 → x' = padded)) ∧
      (∃ o n n',
         [0; 2; 5] !! i = Some o ∧
         output_seq_offsets out !! i = Some n ∧
         output_seq_offsets out' !! i = Some n' ∧
         drop 3 (Torch.slice (output_seq_embeddings out) n (n + (len + 3)))
           = Torch.slice seq_embeddings o (o + len) ∧
         drop 3 (Torch.slice (output_seq_embeddings out') n' (n' + (len + 3)))
           = Torch.slice seq_embeddings o (o + len)).
Proof.
  apply (gate_scoped_per_feature 24 128 0 self max_seq_len seq_lengths
           seq_timestamps seq_embeddings num_targets seq_payloads
           "geo" 2 2 [("ctx", 1%nat)] [] 2 geo_values [0; 1; 3]);
    [lia|lia|reflexivity|compute_done|compute_done|vm_compute; lia
    |reflexivity|reflexivity|reflexivity|reflexivity
    |repeat constructor|repeat constructor; lia|reflexivity].
Defined.
End Witnesses.

(** * Further properties of the module *)

(** ** Construction *)

(** X1. Every preprocessor built by [__init__] has one weight matrix and one
    bias vector per contextual slot, each weight matrix with
    [input_embedding_dim] rows of [output_embedding_dim] entries, and each
    bias vector made of [output_embedding_dim] zeros. *)
Theorem init_slot_parameters (Din Dout : nat) features mins mlp normal :
  let self := __init__ Din Dout features mins mlp normal in
  _max_contextual_seq_len self = sum_list features.*2 ∧
  slot_parameters_ok self = true ∧
  Forall (λ W, length W = Din ∧ Forall (λ r, length r = Dout) W)
         (_batched_contextual_linear_weights self) ∧
  Forall (λ bias_s, bias_s = replicate Dout Torch.f_zero)
         (_batched_contextual_linear_bias self).
Proof.
  intros self. split; [done|]. split.
  - unfold slot_parameters_ok, self, _max_contextual_seq_len. simpl.
    rewrite length_fmap, length_seq, length_replicate.
    by rewrite !bool_decide_eq_true_2.
  - split.
    + apply Forall_fmap, Forall_true. intros s. simpl.
      rewrite length_fmap, length_seq. split; [done|].
      apply Forall_fmap, Forall_true. intros i. simpl.
      by rewrite length_fmap, length_seq.
    + by apply Forall_replicate.
Qed.

(** ** Missing payload entries *)

Section MissingPayload.
Variables prec emax : Z.
Context {Ts : Type} (ts_zero : Ts).
Implicit Types (self : ContextualPreprocessor) (seq_lengths : list Z)
  (seq_timestamps : list Ts) (seq_embeddings : list (list spec_float))
  (num_targets : list Z) (seq_payloads : gmap string tensor).

(** X2. If the payloads lack the values or the offsets of one contextual
    feature, [_get_contextual_input_embeddings] fails, and so does
    [forward] as soon as the contextual width is positive. *)
Theorem forward_missing_payload self max_seq_len seq_lengths seq_timestamps
    seq_embeddings num_targets seq_payloads key (m : nat) :
  (key, m) ∈ _contextual_feature_to_max_length self →
  seq_payloads !! key = None ∨ seq_payloads !! (key +:+ "_offsets") = None →
  _get_contextual_input_embeddings prec emax seq_lengths seq_payloads
    (_contextual_feature_to_max_length self)
    (_contextual_feature_to_min_uih_length self) = None ∧
  ((0 < _max_contextual_seq_len self)%nat →
   forward prec emax ts_zero self max_seq_len seq_lengths seq_timestamps
     seq_embeddings num_targets seq_payloads = None).
Proof.
  intros Hkey Hmissing.
  assert (Hnone : _get_contextual_input_embeddings prec emax seq_lengths
                    seq_payloads (_contextual_feature_to_max_length self)
                    (_contextual_feature_to_min_uih_length self) = None).
  { unfold _get_contextual_input_embeddings.
    rewrite (mapM_None_2 _ (_contextual_feature_to_max_length self)); [done|].
    apply Exists_exists. exists (key, m). split; [done|]. simpl.
    unfold padded_feature.
    destruct Hmissing as [-> | Hoffsets]; [done|].
    rewrite Hoffsets. simpl.
    by destruct (seq_payloads !! key ≫= as_float_tensor). }
  split; [done|]. intros HC. unfold forward.
  rewrite bool_decide_eq_true_2 by done. by rewrite Hnone.
Qed.
End MissingPayload.

(** ** The returned tuple as a jagged sequence *)

Lemma length_mjoin_sum_Z {V} (pieces : list (list V)) :
  Z.of_nat (length (mjoin pieces))
  = sum_Z ((λ r, Z.of_nat (length r)) <$> pieces).
Proof.
  unfold sum_Z. induction pieces as [|r pieces IH]; [done|].
  rewrite fmap_cons. cbn [foldr]. rewrite <-IH. simpl.
  rewrite length_app. lia.
Qed.

Section JaggedOutput.
Variables prec emax : Z.
Context {Ts : Type} (ts_zero : Ts).
Implicit Types (self : ContextualPreprocessor) (seq_lengths : list Z)
  (seq_timestamps : list Ts) (seq_embeddings : list (list spec_float))
  (num_targets : list Z) (seq_payloads : gmap string tensor).

(** The timestamps [forward] returns when contextual features are
    prepended, read one example at a time. *)
Lemma timestamps_concat_pieces (C : nat) max_seq_len seq_lengths
    seq_timestamps :
  Torch.squeeze_last
    (Jagged.concat_2D_jagged (replicate (length seq_lengths * C) [ts_zero])
       (Torch.unsqueeze_last seq_timestamps) C max_seq_len
       (Torch.asynchronous_complete_cumsum seq_lengths))
  = mjoin (merged_pieces
             (replicate (length seq_lengths) (replicate C ts_zero))
             seq_timestamps (Torch.asynchronous_complete_cumsum seq_lengths)).
Proof.
  unfold Torch.squeeze_last, Torch.unsqueeze_last.
  rewrite <-(fmap_replicate (λ x, [x])).
  rewrite concat_2D_jagged_fmap, mjoin_singletons.
  rewrite <-mjoin_replicate_replicate.
  apply concat_2D_jagged_rows.
  - apply Forall_replicate, length_replicate.
  - unfold Torch.asynchronous_complete_cumsum.
    rewrite length_cumsum_from, length_replicate. lia.
Qed.

(** X3. When the input is a jagged sequence (non-negative lengths that
    sum to the number of content embeddings and of timestamps), so is the
    output: the returned lengths sum to the number of returned embeddings
    and of returned timestamps, and the last returned offset is that
    total.  With a positive contextual width the batch is taken non-empty
    and within the shape contract. *)
Theorem forward_output_is_jagged self max_seq_len seq_lengths seq_timestamps
    seq_embeddings num_targets seq_payloads :
  let C := _max_contextual_seq_len self in
  Forall (λ len, 0 ≤ len) seq_lengths →
  Z.of_nat (length (_content_embedding_mlp self seq_embeddings))
    = sum_Z seq_lengths →
  Z.of_nat (length seq_timestamps) = sum_Z seq_lengths →
  ((0 < C)%nat →
   seq_lengths ≠ [] ∧
   slot_parameters_ok self = true ∧
   payloads_ok (length seq_lengths) (_input_embedding_dim self) seq_payloads
     (_contextual_feature_to_max_length self) = true) →
  ∃ out,
    forward prec emax ts_zero self max_seq_len seq_lengths seq_timestamps
      seq_embeddings num_targets seq_payloads = Some out ∧
    Z.of_nat (length (output_seq_embeddings out))
      = sum_Z (output_seq_lengths out) ∧
    Z.of_nat (length (output_seq_timestamps out))
      = sum_Z (output_seq_lengths out) ∧
    output_seq_offsets out !! length (output_seq_lengths out)
      = Some (sum_Z (output_seq_lengths out)).
Proof.
  intros C Hnn Hemb Hts Hshape.
  destruct (decide (0 < C)%nat) as [HC|HC].
  - destruct (Hshape HC) as (_ & Hparams & Hpayloads).
    destruct (forward_embeddings_layout prec emax ts_zero self max_seq_len
                seq_lengths seq_timestamps seq_embeddings num_targets
                seq_payloads HC Hparams Hpayloads Hnn Hemb)
      as (dense & out & Hdense & Hlen & Hout & Hpieces & _).
    exists out. split; [done|].
    pose proof (forward_with_contextual prec emax ts_zero self max_seq_len
                  seq_lengths seq_timestamps seq_embeddings num_targets
                  seq_payloads dense HC Hdense) as Hout'.
    rewrite Hout in Hout'. simpl in Hout'. injection Hout' as ->.
    simpl in *. fold C in Hpieces |- *.
    assert (Hnn' : Forall (λ len, 0 ≤ len)
                     ((λ len, len + Z.of_nat C) <$> seq_lengths)).
    { apply Forall_fmap. eapply Forall_impl; [exact Hnn|].
      intros len Hlen0. simpl in *. lia. }
    split_and!.
    + rewrite Hpieces, length_mjoin_sum_Z.
      rewrite (merged_pieces_lengths _ _ C); try done.
      * apply Forall_fmap, Forall_true. intros row. simpl.
        by apply length_slot_projection.
      * by rewrite length_fmap.
    + rewrite timestamps_concat_pieces, length_mjoin_sum_Z.
      rewrite (merged_pieces_lengths _ _ C); try done.
      * apply Forall_replicate, length_replicate.
      * by rewrite length_replicate.
    + apply (offsets_last _ _ (cumsum_offsets_invariant _ Hnn')).
  - assert (C = 0%nat) as HC0 by lia.
    eexists. split; [by apply forward_without_contextual|]. simpl.
    split_and!; [done|done|].
    apply (offsets_last _ _ (cumsum_offsets_invariant _ Hnn)).
Qed.
End JaggedOutput.

Section LengthBound.
Variables prec emax : Z.
Context {Ts : Type} (ts_zero : Ts).
Implicit Types (self : ContextualPreprocessor) (seq_lengths : list Z)
  (seq_timestamps : list Ts) (seq_embeddings : list (list spec_float))
  (num_targets : list Z) (seq_payloads : gmap string tensor).

(** X4. [max_seq_len] stays a bound of the lengths: if no input length
    exceeds [max_seq_len], no returned length exceeds the returned
    [max_seq_len], whether or not contextual features are prepended. *)
Theorem forward_keeps_length_bound self max_seq_len seq_lengths
    seq_timestamps seq_embeddings num_targets seq_payloads :
  Forall (λ len, len ≤ max_seq_len) seq_lengths →
  ((0 < _max_contextual_seq_len self)%nat →
   seq_lengths ≠ [] ∧
   is_Some (_get_contextual_input_embeddings prec emax seq_lengths
              seq_payloads (_contextual_feature_to_max_length self)
              (_contextual_feature_to_min_uih_length self))) →
  ∃ out,
    forward prec emax ts_zero self max_seq_len seq_lengths seq_timestamps
      seq_embeddings num_targets seq_payloads = Some out ∧
    Forall (λ len, len ≤ output_max_seq_len out) (output_seq_lengths out).
Proof.
  intros Hbound Hfound.
  destruct (decide (0 < _max_contextual_seq_len self)%nat) as [HC|HC].
  - destruct (Hfound HC) as [_ [dense Hdense]]. eexists.
    split; [by eapply forward_with_contextual|]. simpl.
    apply Forall_fmap. eapply Forall_impl; [exact Hbound|].
    intros len Hlen. simpl in *. lia.
  - eexists. split; [apply forward_without_contextual; lia|done].
Qed.
End LengthBound.

(** ** The dense contextual matrix and its slots *)

Section DenseMatrix.
Variables prec emax : Z.
Implicit Types (self : ContextualPreprocessor) (seq_lengths : list Z)
  (seq_payloads : gmap string tensor) (mins : gmap string Z)
  (features : list (string * nat)).

(** X5. Under the shape contract, [_get_contextual_input_embeddings]
    returns a matrix with one row per example and
    [C * input_embedding_dim] columns, [C] being the sum of the maximum
    lengths: exactly what [view(-1, C, input_embedding_dim)] needs. *)
Theorem contextual_embeddings_shape (Din : nat) seq_lengths seq_payloads
    features mins :
  features ≠ [] →
  payloads_ok (length seq_lengths) Din seq_payloads features = true →
  ∃ dense,
    _get_contextual_input_embeddings prec emax seq_lengths seq_payloads
      features mins = Some dense ∧
    length dense = length seq_lengths ∧
    Forall (λ row, length row = (sum_list features.*2 * Din)%nat) dense.
Proof.
  intros Hne Hok.
  by apply (contextual_input_embeddings_shape prec emax
              (length seq_lengths) Din).
Qed.

(** X6. Locality of the batched projection: for two runs over batches of
    the same size and preprocessors of the same dimensions, if row [b]
    carries the same [s]-th group of [input_embedding_dim] columns in both
    and slot [s] has the same weight matrix and bias in both, then the
    projected vector of example [b] at slot [s] is the same in both,
    whatever the other examples, the other columns and the other slots
    hold. *)
Theorem project_contextual_entry_local self self' dense dense' (b s : nat)
    row row' bias_s W_s :
  _max_contextual_seq_len self' = _max_contextual_seq_len self →
  _input_embedding_dim self' = _input_embedding_dim self →
  _output_embedding_dim self' = _output_embedding_dim self →
  length dense' = length dense →
  (s < _max_contextual_seq_len self)%nat →
  dense !! b = Some row → dense' !! b = Some row' →
  take (_input_embedding_dim self) (drop (s * _input_embedding_dim self) row')
  = take (_input_embedding_dim self)
      (drop (s * _input_embedding_dim self) row) →
  _batched_contextual_linear_bias self !! s = Some bias_s →
  _batched_contextual_linear_bias self' !! s = Some bias_s →
  _batched_contextual_linear_weights self !! s = Some W_s →
  _batched_contextual_linear_weights self' !! s = Some W_s →
  is_Some (project_contextual prec emax self dense !! b ≫= (.!! s)) ∧
  project_contextual prec emax self' dense' !! b ≫= (.!! s)
  = project_contextual prec emax self dense !! b ≫= (.!! s).
Proof.
  intros HC HDin HDout Hsize Hs Hrow Hrow' Hchunk Hbias Hbias' HW HW'.
  pose proof (lookup_lt_Some _ _ _ Hrow) as Hb.
  pose proof (lookup_lt_Some _ _ _ Hrow') as Hb'.
  unfold project_contextual. rewrite HC, HDin, HDout.
  rewrite !lookup_transpose01 by done. simpl.
  rewrite !list_lookup_fmap, !lookup_baddbmm, Hbias, Hbias', HW, HW'. simpl.
  rewrite !lookup_transpose01 by done. simpl.
  split; [eauto|]. f_equal.
  set (Din := _input_embedding_dim self) in *.
  transitivity (Torch.affine prec emax (_output_embedding_dim self) bias_s W_s
                  (take Din (drop (s * Din) row))).
  - apply list_lookup_total_correct.
    unfold Torch.view3. rewrite !list_lookup_fmap, Hrow'. simpl.
    rewrite <-Hchunk. do 2 f_equal.
    by apply list_lookup_total_correct, lookup_view_row.
  - symmetry. apply list_lookup_total_correct.
    unfold Torch.view3. rewrite !list_lookup_fmap, Hrow. simpl.
    do 2 f_equal. by apply list_lookup_total_correct, lookup_view_row.
Qed.
End DenseMatrix.

Section SlotInputs.
Variables prec emax : Z.
Implicit Types (seq_lengths : list Z) (seq_payloads : gmap string tensor)
  (mins : gmap string Z) (features : list (string * nat))
  (row : list spec_float).

Lemma payloads_ok_app (B Din : nat) seq_payloads features1 features2 :
  payloads_ok B Din seq_payloads (features1 ++ features2) = true →
  payloads_ok B Din seq_payloads features1 = true ∧
  payloads_ok B Din seq_payloads features2 = true.
Proof.
  unfold payloads_ok. rewrite forallb_app. by intros [??]%andb_prop.
Qed.

(** The rows of the features before a given one fill as many columns as
    their slots need. *)
Lemma feature_rows_width (Din : nat) seq_lengths seq_payloads mins features
    (b : nat) rows :
  payloads_ok (length seq_lengths) Din seq_payloads features = true →
  Forall2 (λ kv r,
             padded_feature prec emax seq_lengths seq_payloads mins
               kv.1 kv.2 ≫= (.!! b) = Some r) features rows →
  length (mjoin rows) = (sum_list features.*2 * Din)%nat.
Proof.
  intros Hok Hrows. induction Hrows as [|[key m] r features rows Hr _ IH];
    [done|].
  unfold payloads_ok in Hok. simpl in Hok.
  apply andb_prop in Hok as [Hkey Hok].
  rewrite fmap_cons. simpl. rewrite length_app, (IH Hok).
  destruct (padded_feature_shape prec emax _ Din seq_lengths seq_payloads
              mins key m Hkey eq_refl) as (v & Hv & _ & Hw).
  simpl in Hr. rewrite Hv in Hr. simpl in Hr.
  rewrite (Forall_lookup_1 _ _ _ _ Hw Hr). lia.
Qed.

Lemma take_drop_app_middle {A} (l1 x l3 : list A) (n k : nat) :
  (k + n ≤ length x)%nat →
  take n (drop (length l1 + k) (l1 ++ x ++ l3)) = take n (drop k x).
Proof.
  intros Hfit. rewrite drop_app_add, drop_app_le by lia.
  rewrite take_app_le; [done|]. rewrite length_drop. lia.
Qed.

Lemma mask_row_take_drop k len row (n i : nat) :
  take n (drop i (mask_row prec emax k len row))
  = mask_row prec emax k len (take n (drop i row)).
Proof. unfold mask_row. by rewrite fmap_take, fmap_drop. Qed.

(** X7. The input of a slot is the padded vector of its feature: for the
    feature [key] that follows the features [pre] in the dictionary, the
    [j]-th slot of [key] reads, in row [b] of the dense matrix, the [j]-th
    entry of the padded row of example [b] (a payload vector, or the zero
    vector past the example's count), multiplied by the mask of example
    [b] when the feature declares a positive minimum history length. *)
Theorem contextual_slot_input (Din : nat) seq_lengths seq_payloads mins
    pre key (m : nat) post values offsets dense (b j : nat) row len o o' :
  payloads_ok (length seq_lengths) Din seq_payloads
    (pre ++ (key, m) :: post) = true →
  seq_payloads !! key = Some (FloatTensor Din values) →
  seq_payloads !! (key +:+ "_offsets") = Some (IntTensor offsets) →
  _get_contextual_input_embeddings prec emax seq_lengths seq_payloads
    (pre ++ (key, m) :: post) mins = Some dense →
  dense !! b = Some row → seq_lengths !! b = Some len →
  offsets !! b = Some o → offsets !! S b = Some o' →
  (j < m)%nat →
  ∃ vec,
    Jagged.pad_row values m (replicate Din Torch.f_zero) o o' !! j = Some vec ∧
    take Din (drop ((sum_list pre.*2 + j) * Din) row)
    = if bool_decide (0 < default 0 (mins !! key))
      then mask_row prec emax (default 0 (mins !! key)) len vec
      else vec.
Proof.
  intros Hok Hvalues Hoffsets Hdense Hrow Hlen Ho Ho' Hj.
  apply payloads_ok_app in Hok as [Hpre Hrest].
  assert (Hkey : feature_payload_ok (length seq_lengths) Din seq_payloads key
                 = true).
  { unfold payloads_ok in Hrest. simpl in Hrest.
    by apply andb_prop in Hrest as [? _]. }
  apply feature_payload_ok_inv in Hkey
    as (values0 & offsets0 & Hvalues0 & _ & Hwidth & _).
  rewrite Hvalues in Hvalues0. injection Hvalues0 as <-.
  set (fill := replicate Din Torch.f_zero).
  set (padded := Jagged.pad_row values m fill o o').
  assert (Hpadded_len : length padded = m) by apply length_pad_row.
  assert (Hpadded_w : Forall (λ r, length r = Din) padded).
  { apply Forall_pad_row; [done|apply length_replicate]. }
  destruct (lookup_lt_is_Some_2 padded j) as [vec Hvec]; [lia|].
  exists vec. split; [done|].
  destruct (dense_row_features prec emax _ _ _ _ _ _ _ Hdense Hrow)
    as (rows & Hrows & ->).
  apply Forall2_app_inv_l in Hrows as (r1 & r2 & H1 & H2 & ->).
  apply Forall2_cons_inv_l in H2 as (x & r3 & Hx & H3 & ->).
  rewrite join_app. cbn [mjoin list_join].
  rewrite Nat.mul_add_distr_r.
  rewrite <-(feature_rows_width Din seq_lengths seq_payloads mins pre b r1)
    by done.
  simpl in Hx.
  rewrite (padded_feature_found prec emax _ _ _ _ _ _ _ _ Hvalues Hoffsets)
    in Hx.
  simpl in Hx.
  assert (Hfp : flattened_padded Din values offsets m !! b
                = Some (mjoin padded)).
  { unfold flattened_padded, Torch.flatten12.
    rewrite list_lookup_fmap.
    by rewrite (lookup_jagged_to_padded_dense _ _ _ _ _ _ _ Ho Ho'). }
  assert (Hchunk : take Din (drop (j * Din) (mjoin padded)) = vec).
  { rewrite take_drop_mjoin_uniform by done. by rewrite Hvec. }
  assert (Hfit : (j * Din + Din ≤ length (mjoin padded))%nat).
  { rewrite (length_mjoin_uniform Din) by done. rewrite Hpadded_len. nia. }
  case_bool_decide.
  - rewrite lookup_gate, Hfp, Hlen in Hx. simpl in Hx. injection Hx as <-.
    rewrite take_drop_app_middle.
    + by rewrite mask_row_take_drop, Hchunk.
    + unfold mask_row. by rewrite length_fmap.
  - rewrite Hfp in Hx. injection Hx as <-.
    by rewrite take_drop_app_middle.
Qed.
End SlotInputs.

(** ** Flat positions of the merged sequences *)

Section MergedPositions.
Import Torch.
Context {V : Type}.
Implicit Types (rows : list (list V)) (right row : list V)
  (lengths : list Z).

Lemma lookup_of_slice (l xs : list V) a b (i : nat) v :
  slice l a b = xs → xs !! i = Some v → l !! (Z.to_nat a + i)%nat = Some v.
Proof.
  unfold slice. intros <- Hv.
  apply lookup_take_Some in Hv as [Hv _]. by rewrite lookup_drop in Hv.
Qed.

Lemma cumsum_entry_nonneg lengths (i : nat) o :
  Forall (λ len, 0 ≤ len) lengths →
  asynchronous_complete_cumsum lengths !! i = Some o → 0 ≤ o.
Proof.
  intros Hnn Ho.
  pose proof (cumsum_offsets_invariant lengths Hnn) as Hinv.
  apply (offsets_monotone _ _ Hinv 0%nat i 0 o); [lia| |done].
  apply (offsets_first _ _ Hinv).
Qed.

Lemma merged_positions rows right (C : nat) mlr lengths (b : nat) row len :
  Forall (λ r, length r = C) rows → length rows = length lengths →
  Forall (λ len, 0 ≤ len) lengths →
  Z.of_nat (length right) = sum_Z lengths →
  rows !! b = Some row → lengths !! b = Some len →
  ∃ o n,
    asynchronous_complete_cumsum lengths !! b = Some o ∧
    asynchronous_complete_cumsum ((λ len, len + Z.of_nat C) <$> lengths) !! b
      = Some n ∧
    0 ≤ o ∧ 0 ≤ n ∧
    (∀ (s : nat) v, row !! s = Some v →
       Jagged.concat_2D_jagged (mjoin rows) right C mlr
         (asynchronous_complete_cumsum lengths) !! (Z.to_nat n + s)%nat
       = Some v) ∧
    (∀ t : nat, (t < Z.to_nat len)%nat →
       Jagged.concat_2D_jagged (mjoin rows) right C mlr
         (asynchronous_complete_cumsum lengths) !! (Z.to_nat n + C + t)%nat
       = right !! (Z.to_nat o + t)%nat).
Proof.
  intros Hrows Hsame Hnn Hsum Hrow Hlen.
  destruct (merged_layout rows right C mlr lengths b row len)
    as (o & n & Ho & _ & Hn & _ & Hslice & Hcontent); try done.
  assert (Hnn' : Forall (λ len, 0 ≤ len)
                   ((λ len, len + Z.of_nat C) <$> lengths)).
  { apply Forall_fmap. eapply Forall_impl; [exact Hnn|].
    intros len0 Hlen0. simpl in *. lia. }
  exists o, n. split_and!; try done.
  - exact (cumsum_entry_nonneg lengths b o Hnn Ho).
  - exact (cumsum_entry_nonneg _ b n Hnn' Hn).
  - intros s v Hv. eapply lookup_of_slice; [exact Hslice|].
    by apply lookup_app_l_Some.
  - intros t Ht.
    assert (Hw : length row = C) by (by eapply (Forall_lookup_1 _ _ _ _ Hrows)).
    destruct (lookup_lt_is_Some_2 (slice right o (o + len)) t) as [v Hv];
      [lia|].
    rewrite <-Nat.add_assoc.
    rewrite (lookup_of_slice _ _ _ _ (C + t) v Hslice).
    + unfold slice in Hv. apply lookup_take_Some in Hv as [Hv _].
      by rewrite lookup_drop in Hv.
    + rewrite lookup_app_r by lia.
      by replace (C + t - length row)%nat with t by lia.
Qed.
End MergedPositions.

Section ForwardPositions.
Variables prec emax : Z.
Context {Ts : Type} (ts_zero : Ts).
Implicit Types (self : ContextualPreprocessor) (seq_lengths : list Z)
  (seq_timestamps : list Ts) (seq_embeddings : list (list spec_float))
  (num_targets : list Z) (seq_payloads : gmap string tensor).

(** X8. Where each vector of the returned embeddings comes from.  With a
    positive contextual width and inputs within the shape contract, for
    example [b] with input offset [o] and returned offset [n]: position
    [n + s] holds the projection of slot [s] of the example's dense row
    ([bias[s] + row[s*Din : (s+1)*Din] @ weights[s]]) for every slot [s],
    and position [n + C + t] holds the content embedding [o + t] for every
    [t] below the example's length. *)
Theorem forward_embeddings_positions self max_seq_len seq_lengths
    seq_timestamps seq_embeddings num_targets seq_payloads dense (b : nat)
    row len :
  let C := _max_contextual_seq_len self in
  let content := _content_embedding_mlp self seq_embeddings in
  (0 < C)%nat →
  slot_parameters_ok self = true →
  Forall (λ len, 0 ≤ len) seq_lengths →
  Z.of_nat (length content) = sum_Z seq_lengths →
  _get_contextual_input_embeddings prec emax seq_lengths seq_payloads
    (_contextual_feature_to_max_length self)
    (_contextual_feature_to_min_uih_length self) = Some dense →
  length dense = length seq_lengths →
  dense !! b = Some row → seq_lengths !! b = Some len →
  ∃ out o n,
    forward prec emax ts_zero self max_seq_len seq_lengths seq_timestamps
      seq_embeddings num_targets seq_payloads = Some out ∧
    Torch.asynchronous_complete_cumsum seq_lengths !! b = Some o ∧
    output_seq_offsets out !! b = Some n ∧ 0 ≤ o ∧ 0 ≤ n ∧
    (∀ (s : nat) bias_s W_s, (s < C)%nat →
       _batched_contextual_linear_bias self !! s = Some bias_s →
       _batched_contextual_linear_weights self !! s = Some W_s →
       output_seq_embeddings out !! (Z.to_nat n + s)%nat
       = Some (Torch.affine prec emax (_output_embedding_dim self) bias_s W_s
                 (take (_input_embedding_dim self)
                    (drop (s * _input_embedding_dim self) row)))) ∧
    (∀ t : nat, (t < Z.to_nat len)%nat →
       output_seq_embeddings out !! (Z.to_nat n + C + t)%nat
       = content !! (Z.to_nat o + t)%nat).
Proof.
  intros C content HC Hparams Hnn Hsum Hdense Hsize Hrow Hlen.
  eexists. 
  rewrite (forward_with_contextual prec emax ts_zero self max_seq_len
             seq_lengths seq_timestamps seq_embeddings num_targets
             seq_payloads dense HC Hdense). simpl. fold C content.
  rewrite project_contextual_rows by done. unfold Torch.flatten01.
  destruct (merged_positions (slot_projection prec emax self <$> dense)
              content C max_seq_len seq_lengths b
              (slot_projection prec emax self row) len)
    as (o & n & Ho & Hn & Ho0 & Hn0 & Hleft & Hright); try done.
  { apply Forall_fmap, Forall_true. intros r. simpl.
    by apply length_slot_projection. }
  { by rewrite length_fmap. }
  { by rewrite list_lookup_fmap, Hrow. }
  exists o, n. split_and!; try done.
  intros s bias_s W_s Hs Hbias HW. apply Hleft.
  rewrite lookup_slot_projection, Hbias, HW. simpl.
  by rewrite lookup_view_row.
Qed.

(** X9. Where each returned timestamp comes from.  With a positive
    contextual width, for example [b] with input offset [o] and returned
    offset [n]: the positions [n] to [n + C - 1] hold the zero timestamp,
    and position [n + C + t] holds the input timestamp [o + t] for every
    [t] below the example's length. *)
Theorem forward_timestamps_positions self max_seq_len seq_lengths
    seq_timestamps seq_embeddings num_targets seq_payloads (b : nat) len :
  let C := _max_contextual_seq_len self in
  (0 < C)%nat →
  is_Some (_get_contextual_input_embeddings prec emax seq_lengths
             seq_payloads (_contextual_feature_to_max_length self)
             (_contextual_feature_to_min_uih_length self)) →
  Forall (λ len, 0 ≤ len) seq_lengths →
  Z.of_nat (length seq_timestamps) = sum_Z seq_lengths →
  seq_lengths !! b = Some len →
  ∃ out o n,
    forward prec emax ts_zero self max_seq_len seq_lengths seq_timestamps
      seq_embeddings num_targets seq_payloads = Some out ∧
    Torch.asynchronous_complete_cumsum seq_lengths !! b = Some o ∧
    output_seq_offsets out !! b = Some n ∧ 0 ≤ o ∧ 0 ≤ n ∧
    (∀ s : nat, (s < C)%nat →
       output_seq_timestamps out !! (Z.to_nat n + s)%nat = Some ts_zero) ∧
    (∀ t : nat, (t < Z.to_nat len)%nat →
       output_seq_timestamps out !! (Z.to_nat n + C + t)%nat
       = seq_timestamps !! (Z.to_nat o + t)%nat).
Proof.
  intros C HC [dense Hdense] Hnn Hsum Hlen.
  pose proof (lookup_lt_Some _ _ _ Hlen) as Hb.
  eexists.
  rewrite (forward_with_contextual prec emax ts_zero self max_seq_len
             seq_lengths seq_timestamps seq_embeddings num_targets
             seq_payloads dense HC Hdense). simpl. fold C.
  assert (Hts :
    Torch.squeeze_last
      (Jagged.concat_2D_jagged (replicate (length seq_lengths * C) [ts_zero])
         (Torch.unsqueeze_last seq_timestamps) C max_seq_len
         (Torch.asynchronous_complete_cumsum seq_lengths))
    = Jagged.concat_2D_jagged
        (mjoin (replicate (length seq_lengths) (replicate C ts_zero)))
        seq_timestamps C max_seq_len
        (Torch.asynchronous_complete_cumsum seq_lengths)).
  { unfold Torch.squeeze_last, Torch.unsqueeze_last.
    rewrite mjoin_replicate_replicate, <-(fmap_replicate (λ x, [x])).
    by rewrite concat_2D_jagged_fmap, mjoin_singletons. }
  rewrite Hts.
  destruct (merged_positions
              (replicate (length seq_lengths) (replicate C ts_zero))
              seq_timestamps C max_seq_len seq_lengths b
              (replicate C ts_zero) len)
    as (o & n & Ho & Hn & Ho0 & Hn0 & Hleft & Hright); try done.
  { apply Forall_replicate, length_replicate. }
  { by rewrite length_replicate. }
  { by apply lookup_replicate_2. }
  exists o, n. split_and!; try done.
  intros s Hs. apply Hleft. by apply lookup_replicate_2.
Qed.
End ForwardPositions.

(** ** More on the minimum-length gate *)

Section GateEntries.
Variables prec emax : Z.
Implicit Types (seq_lengths : list Z) (seq_payloads : gmap string tensor)
  (mins : gmap string Z) (key : string) (row : list spec_float)
  (features : list (string * nat)).


(** X11. When every example of the batch has at least as many events as
    the minimum history length of a feature (0 when none is declared),
    the gate changes nothing: the feature's block is its flattened padded
    payload, as for a feature without a gate. *)
Theorem gate_noop_when_history_suffices seq_lengths seq_payloads mins key
    (m : nat) d rows offsets :
  1 < prec →
  seq_payloads !! key = Some (FloatTensor d rows) →
  seq_payloads !! (key +:+ "_offsets") = Some (IntTensor offsets) →
  Forall (λ len, default 0 (mins !! key) ≤ len) seq_lengths →
  length offsets = S (length seq_lengths) →
  Forall (Forall (λ x, valid_binary prec emax x = true)) rows →
  padded_feature prec emax seq_lengths seq_payloads mins key m
  = Some (flattened_padded d rows offsets m).
Proof.
  intros Hprec Hvalues Hoffsets Hall Hsize Hvalid.
  rewrite (padded_feature_found prec emax _ _ _ _ _ _ _ _ Hvalues Hoffsets).
  case_bool_decide; [|done]. f_equal.
  apply list_eq. intros b. rewrite lookup_gate.
  destruct (flattened_padded d rows offsets m !! b) as [padded|] eqn:Hpadded;
    [|done].
  simpl.
  pose proof (lookup_lt_Some _ _ _ Hpadded) as Hb.
  rewrite length_flattened_padded, Hsize in Hb. simpl in Hb.
  destruct (lookup_lt_is_Some_2 seq_lengths b Hb) as [len Hlen].
  rewrite Hlen. simpl. f_equal.
  apply mask_row_keep; [done| |].
  - by apply (Forall_lookup_1 _ _ _ _ Hall Hlen).
  - by eapply (Forall_lookup_1 _ _ _ _
                 (Forall_flattened_padded _ d rows offsets m Hvalid eq_refl)).
Qed.

Lemma cat_dim1_row_ext {A} (blocks blocks' : list (list (list A))) (b : nat) :
  Forall2 (λ blk blk', blk !! b = blk' !! b) blocks blocks' →
  Torch.cat_dim1 blocks !! b = Torch.cat_dim1 blocks' !! b.
Proof.
  induction 1 as [|blk blk' blocks blocks' Hblk Hrest IH]; [done|].
  destruct (decide (blocks = [])) as [->|Hne].
  - apply Forall2_nil_inv_l in Hrest as ->. done.
  - assert (blocks' ≠ []) as Hne'.
    { intros ->. by apply Forall2_nil_inv_r in Hrest. }
    rewrite !cat_dim1_cons by done.
    by rewrite !lookup_zip_with, Hblk, IH.
Qed.

Lemma padded_feature_row_local seq_lengths seq_lengths' seq_payloads mins key
    (m b : nat) :
  seq_lengths !! b = seq_lengths' !! b →
  option_Forall2 (λ blk blk', blk !! b = blk' !! b)
    (padded_feature prec emax seq_lengths seq_payloads mins key m)
    (padded_feature prec emax seq_lengths' seq_payloads mins key m).
Proof.
  intros Hsame. unfold padded_feature.
  destruct (seq_payloads !! key ≫= as_float_tensor) as [payload|];
    [|constructor].
  destruct (seq_payloads !! (key +:+ "_offsets") ≫= as_int_tensor)
    as [offsets|]; [|constructor].
  simpl. case_bool_decide; constructor; [|done].
  by rewrite !lookup_gate, Hsame.
Qed.

(** Rows [b] of the dense matrices of two runs whose lengths agree at
    [b]. *)
Lemma dense_row_lookup_ext seq_lengths seq_lengths' seq_payloads features
    mins (b : nat) :
  seq_lengths !! b = seq_lengths' !! b →
  _get_contextual_input_embeddings prec emax seq_lengths seq_payloads
    features mins ≫= (.!! b)
  = _get_contextual_input_embeddings prec emax seq_lengths' seq_payloads
      features mins ≫= (.!! b).
Proof.
  intros Hsame. unfold _get_contextual_input_embeddings.
  assert (Hblocks :
    option_Forall2 (Forall2 (λ blk blk', blk !! b = blk' !! b))
      (mapM (λ kv, padded_feature prec emax seq_lengths seq_payloads mins
                     kv.1 kv.2) features)
      (mapM (λ kv, padded_feature prec emax seq_lengths' seq_payloads mins
                     kv.1 kv.2) features)).
  { induction features as [|[key m] features IH]; [by repeat constructor|].
    cbn [mapM]. simpl.
    destruct (padded_feature_row_local seq_lengths seq_lengths' seq_payloads
                mins key m b Hsame) as [blk blk' Hblk|]; [|constructor].
    simpl. destruct IH as [blocks blocks' Hrest|]; simpl; by repeat constructor. }
  destruct Hblocks as [blocks blocks' Hrest|]; [|done]. simpl.
  by apply cat_dim1_row_ext.
Qed.

(** X12. Within the shape contract (every feature payload describes as
    many examples as [seq_lengths] has entries), row [b] of the dense
    contextual matrix depends on the sequence lengths through the length
    of example [b] only: two batches of the same size whose lengths agree
    at [b] yield the same row [b], so the history of other examples never
    gates, or spares, the features of example [b]. *)
Theorem dense_row_ignores_other_lengths (Din : nat) seq_lengths seq_lengths'
    seq_payloads features mins (b : nat) len :
  features ≠ [] →
  payloads_ok (length seq_lengths) Din seq_payloads features = true →
  length seq_lengths' = length seq_lengths →
  seq_lengths !! b = Some len → seq_lengths' !! b = Some len →
  ∃ dense dense' row,
    _get_contextual_input_embeddings prec emax seq_lengths seq_payloads
      features mins = Some dense ∧
    _get_contextual_input_embeddings prec emax seq_lengths' seq_payloads
      features mins = Some dense' ∧
    dense !! b = Some row ∧ dense' !! b = Some row.
Proof.
  intros Hne Hok Hsize Hlen Hlen'.
  destruct (contextual_input_embeddings_shape prec emax _ Din seq_lengths
              seq_payloads features mins Hne Hok eq_refl)
    as (dense & Hdense & Hrows & _).
  rewrite <-Hsize in Hok.
  destruct (contextual_input_embeddings_shape prec emax _ Din seq_lengths'
              seq_payloads features mins Hne Hok eq_refl)
    as (dense' & Hdense' & Hrows' & _).
  pose proof (lookup_lt_Some _ _ _ Hlen) as Hb.
  destruct (lookup_lt_is_Some_2 dense b) as [row Hrow]; [lia|].
  exists dense, dense', row. split_and!; try done.
  pose proof (dense_row_lookup_ext seq_lengths seq_lengths' seq_payloads
                features mins b) as Hext.
  rewrite Hdense, Hdense', Hlen, Hlen' in Hext. simpl in Hext.
  rewrite <-Hext, Hrow; done.
Qed.
End GateEntries.

(** ** Old and new offsets *)

Section OffsetShift.
Variables prec emax : Z.
Context {Ts : Type} (ts_zero : Ts).
Implicit Types (self : ContextualPreprocessor) (seq_lengths : list Z)
  (seq_timestamps : list Ts) (seq_embeddings : list (list spec_float))
  (num_targets : list Z) (seq_payloads : gmap string tensor).

Lemma sum_Z_take_shift (C : Z) lengths (i : nat) :
  (i ≤ length lengths)%nat →
  sum_Z (take i ((λ len, len + C) <$> lengths))
  = sum_Z (take i lengths) + Z.of_nat i * C.
Proof.
  unfold sum_Z. revert i.
  induction lengths as [|x rest IH]; intros [|i] Hi; simpl in *;
    try lia.
  rewrite IH by lia. lia.
Qed.

(** X13. The returned offsets are the input offsets shifted by the
    contextual positions of the preceding examples: the offset of example
    [i] grows by [i * C] (by nothing when the contextual width is 0). *)
Theorem forward_offsets_shift self max_seq_len seq_lengths seq_timestamps
    seq_embeddings num_targets seq_payloads :
  let C := _max_contextual_seq_len self in
  ((0 < C)%nat →
   seq_lengths ≠ [] ∧
   is_Some (_get_contextual_input_embeddings prec emax seq_lengths
              seq_payloads (_contextual_feature_to_max_length self)
              (_contextual_feature_to_min_uih_length self))) →
  ∃ out,
    forward prec emax ts_zero self max_seq_len seq_lengths seq_timestamps
      seq_embeddings num_targets seq_payloads = Some out ∧
    ∀ (i : nat) o,
      Torch.asynchronous_complete_cumsum seq_lengths !! i = Some o →
      output_seq_offsets out !! i = Some (o + Z.of_nat i * Z.of_nat C).
Proof.
  intros C Hfound.
  destruct (decide (0 < C)%nat) as [HC|HC].
  - destruct (Hfound HC) as [_ [dense Hdense]]. eexists.
    split; [by eapply forward_with_contextual|]. simpl. fold C.
    intros i o Ho. pose proof (lookup_lt_Some _ _ _ Ho) as Hi.
    unfold Torch.asynchronous_complete_cumsum in *.
    rewrite length_cumsum_from in Hi.
    rewrite lookup_cumsum_from in Ho by lia. injection Ho as <-.
    rewrite lookup_cumsum_from by (rewrite length_fmap; lia).
    by rewrite sum_Z_take_shift by lia.
  - assert (HC0 : C = 0%nat) by lia. eexists.
    split; [by apply forward_without_contextual|]. simpl.
    intros i o Ho. rewrite Ho, HC0. f_equal. lia.
Qed.
End OffsetShift.

(** ** The further properties at the worked batch *)

Section MoreWitnesses.
Import Worked.

Lemma forward_missing_payload_witness :
  _get_contextual_input_embeddings 24 128 seq_lengths
    (delete "geo_offsets" seq_payloads) features min_uih_lengths = None ∧
  ((0 < 3)%nat →
   forward 24 128 0 self max_seq_len seq_lengths seq_timestamps
     seq_embeddings num_targets (delete "geo_offsets" seq_payloads) = None).
Proof.
  apply (forward_missing_payload 24 128 0 self max_seq_len seq_lengths
           seq_timestamps seq_embeddings num_targets
           (delete "geo_offsets" seq_payloads) "geo" 2);
    [compute_done|right; reflexivity].
Defined.

Lemma forward_output_is_jagged_witness :
  ∃ out,
    run self = Some out ∧
    Z.of_nat (length (output_seq_embeddings out))
      = sum_Z (output_seq_lengths out) ∧
    Z.of_nat (length (output_seq_timestamps out))
      = sum_Z (output_seq_lengths out) ∧
    output_seq_offsets out !! length (output_seq_lengths out)
      = Some (sum_Z (output_seq_lengths out)).
Proof.
  apply (forward_output_is_jagged 24 128 0 self);
    [repeat constructor; lia|reflexivity|reflexivity|].
  intros _. split_and!; [discriminate|reflexivity|reflexivity].
Defined.

Lemma forward_keeps_length_bound_witness :
  ∃ out,
    run self = Some out ∧
    Forall (λ len, len ≤ output_max_seq_len out) (output_seq_lengths out).
Proof.
  apply (forward_keeps_length_bound 24 128 0 self);
    [repeat constructor; vm_compute; discriminate|].
  intros _. split; [discriminate|vm_compute; eauto].
Defined.

Lemma contextual_embeddings_shape_witness :
  ∃ dense,
    contextual = Some dense ∧
    length dense = length seq_lengths ∧
    Forall (λ row, length row = (sum_list features.*2 * 2)%nat) dense.
Proof.
  apply (contextual_embeddings_shape 24 128 2 seq_lengths seq_payloads
           features min_uih_lengths); [discriminate|reflexivity].
Defined.

Lemma project_contextual_entry_local_witness :
  is_Some (project_contextual 24 128 self
             [[one; two; one; one; two; two];
              [three; four; three; one; four; three]] !! 0%nat
           ≫= (.!! 1%nat)) ∧
  project_contextual 24 128
    (with_slot_parameters self 0 [[four; four]; [four; four]] [three; three])
    [[four; three; one; one; three; four];
     [one; one; two; two; one; one]] !! 0%nat ≫= (.!! 1%nat)
  = project_contextual 24 128 self
      [[one; two; one; one; two; two];
       [three; four; three; one; four; three]] !! 0%nat ≫= (.!! 1%nat).
Proof.
  apply (project_contextual_entry_local 24 128 self
           (with_slot_parameters self 0 [[four; four]; [four; four]]
              [three; three])
           [[one; two; one; one; two; two];
            [three; four; three; one; four; three]]
           [[four; three; one; one; three; four];
            [one; one; two; two; one; one]]
           0 1 [one; two; one; one; two; two]
           [four; three; one; one; three; four]
           [one; one] [[two; Torch.f_zero]; [Torch.f_zero; two]]);
    [reflexivity|reflexivity|reflexivity|reflexivity|vm_compute; lia
    |reflexivity|reflexivity|reflexivity|reflexivity|reflexivity
    |reflexivity|reflexivity].
Defined.

Lemma contextual_slot_input_witness :
  ∃ vec,
    Jagged.pad_row geo_values 2 (replicate 2 Torch.f_zero) 1 3 !! 0%nat
      = Some vec ∧
    take 2 (drop ((sum_list [("ctx", 1%nat)].*2 + 0) * 2)
              [three; four; three; one; four; three])
    = if bool_decide (0 < default 0 (min_uih_lengths !! "geo"))
      then mask_row 24 128 (default 0 (min_uih_lengths !! "geo")) 3 vec
      else vec.
Proof.
  eapply (contextual_slot_input 24 128 2 seq_lengths seq_payloads
            min_uih_lengths [("ctx", 1%nat)] "geo" 2 [] geo_values [0; 1; 3]
            _ 1 0);
    [reflexivity|reflexivity|reflexivity|reflexivity|reflexivity
    |reflexivity|reflexivity|reflexivity|lia].
Defined.

Lemma forward_embeddings_positions_witness :
  ∃ out o n,
    run self = Some out ∧
    [0; 2; 5] !! 1%nat = Some o ∧
    output_seq_offsets out !! 1%nat = Some n ∧ 0 ≤ o ∧ 0 ≤ n ∧
    (∀ (s : nat) bias_s W_s, (s < 3)%nat →
       _batched_contextual_linear_bias self !! s = Some bias_s →
       _batched_contextual_linear_weights self !! s = Some W_s →
       output_seq_embeddings out !! (Z.to_nat n + s)%nat
       = Some (Torch.affine 24 128 2 bias_s W_s
                 (take 2 (drop (s * 2)
                            [three; four; three; one; four; three])))) ∧
    (∀ t : nat, (t < Z.to_nat 3)%nat →
       output_seq_embeddings out !! (Z.to_nat n + 3 + t)%nat
       = seq_embeddings !! (Z.to_nat o + t)%nat).
Proof.
  eapply (forward_embeddings_positions 24 128 0 self max_seq_len seq_lengths
            seq_timestamps seq_embeddings num_targets seq_payloads _ 1);
    [vm_compute; lia|reflexivity|repeat constructor; lia|reflexivity
    |reflexivity|reflexivity|reflexivity|reflexivity].
Defined.

Lemma forward_timestamps_positions_witness :
  ∃ out o n,
    run self = Some out ∧
    [0; 2; 5] !! 1%nat = Some o ∧
    output_seq_offsets out !! 1%nat = Some n ∧ 0 ≤ o ∧ 0 ≤ n ∧
    (∀ s : nat, (s < 3)%nat →
       output_seq_timestamps out !! (Z.to_nat n + s)%nat = Some 0) ∧
    (∀ t : nat, (t < Z.to_nat 3)%nat →
       output_seq_timestamps out !! (Z.to_nat n + 3 + t)%nat
       = seq_timestamps !! (Z.to_nat o + t)%nat).
Proof.
  apply (forward_timestamps_positions 24 128 0 self max_seq_len seq_lengths
           seq_timestamps seq_embeddings num_targets seq_payloads 1 3);
    [vm_compute; lia|vm_compute; eauto|repeat constructor; lia
    |reflexivity|reflexivity].
Defined.


Lemma gate_noop_when_history_suffices_witness :
  padded_feature 24 128 seq_lengths seq_payloads {[ "geo" := 2 ]} "geo" 2
  = Some (flattened_padded 2 geo_values [0; 1; 3] 2).
Proof.
  apply (gate_noop_when_history_suffices 24 128 seq_lengths seq_payloads
           {[ "geo" := 2 ]} "geo" 2 2 geo_values [0; 1; 3]);
    [lia|reflexivity|reflexivity|repeat constructor; vm_compute; discriminate
    |reflexivity|repeat constructor].
Defined.

Lemma dense_row_ignores_other_lengths_witness :
  ∃ dense dense' row,
    _get_contextual_input_embeddings 24 128 [2; 3] seq_payloads features
      min_uih_lengths = Some dense ∧
    _get_contextual_input_embeddings 24 128 [0; 3] seq_payloads features
      min_uih_lengths = Some dense' ∧
    dense !! 1%nat = Some row ∧ dense' !! 1%nat = Some row.
Proof.
  apply (dense_row_ignores_other_lengths 24 128 2 [2; 3] [0; 3] seq_payloads
           features min_uih_lengths 1 3);
    [discriminate|reflexivity|reflexivity|reflexivity|reflexivity].
Defined.

Lemma forward_offsets_shift_witness :
  ∃ out,
    run self = Some out ∧
    ∀ (i : nat) o,
      [0; 2; 5] !! i = Some o →
      output_seq_offsets out !! i = Some (o + Z.of_nat i * 3).
Proof.
  apply (forward_offsets_shift 24 128 0 self).
  intros _. split; [discriminate|vm_compute; eauto].
Defined.
End MoreWitnesses.
